(** * risk_utils: registry-document parsing, code lookup, trade matching

    A shallow embedding of [src/risk_utils.py].  Python [str] values are
    sequences of Unicode code points; the external collaborators (OCR
    engine, reference table, transaction registry, pandas date parser)
    enter as arguments. *)

From Stdlib Require Import List Bool Arith ZArith NArith QArith Qabs Lia Lqa.
From Stdlib Require Import Strings.String Strings.Ascii.
From Stdlib Require Import Sorting.Permutation Sorting.Sorted.
Import ListNotations.

Close Scope Q_scope.
Open Scope nat_scope.

(** ** Python strings *)

(** A character is a Unicode code point, a [str] a list of them. *)
Definition char := N.
Definition str := list char.

(** Source literals are written as UTF-8 byte strings and decoded here. *)
Fixpoint utf8_decode (bs : list N) (need : nat) (acc : N) : str :=
  match bs with
  | [] => []
  | b :: bs' =>
      match need with
      | O =>
          if (b <? 0x80)%N then b :: utf8_decode bs' 0 0%N
          else if (b <? 0xE0)%N then utf8_decode bs' 1 (b - 0xC0)%N
          else if (b <? 0xF0)%N then utf8_decode bs' 2 (b - 0xE0)%N
          else utf8_decode bs' 3 (b - 0xF0)%N
      | S O => (acc * 64 + (b - 0x80))%N :: utf8_decode bs' 0 0%N
      | S n => utf8_decode bs' n (acc * 64 + (b - 0x80))%N
      end
  end.

Definition lit (s : string) : str :=
  utf8_decode (map N_of_ascii (list_ascii_of_string s)) 0 0%N.

Definition chr1 (s : string) : char := hd 0%N (lit s).

Definition char_eqb (a b : char) : bool := N.eqb a b.

Fixpoint str_eqb (a b : str) : bool :=
  match a, b with
  | [], [] => true
  | x :: a', y :: b' => char_eqb x y && str_eqb a' b'
  | _, _ => false
  end.

(** [Py_UNICODE_ISSPACE]: the table behind [str.isspace], [str.split],
    [str.strip] and the regex class [\s] on [str] patterns. *)
Definition isspace (c : char) : bool :=
  ((0x09 <=? c) && (c <=? 0x0D) || (0x1C <=? c) && (c <=? 0x20)
   || (c =? 0x85) || (c =? 0xA0) || (c =? 0x1680)
   || (0x2000 <=? c) && (c <=? 0x200A)
   || (c =? 0x2028) || (c =? 0x2029) || (c =? 0x202F) || (c =? 0x205F)
   || (c =? 0x3000))%N.

(** Code points of the digit zero of every decimal script (category Nd);
    each is followed by its digits one to nine. *)
Definition decimal_zeros : list N :=
  [0x30; 0x660; 0x6F0; 0x7C0; 0x966; 0x9E6; 0xA66; 0xAE6; 0xB66; 0xBE6;
   0xC66; 0xCE6; 0xD66; 0xDE6; 0xE50; 0xED0; 0xF20; 0x1040; 0x1090; 0x17E0;
   0x1810; 0x1946; 0x19D0; 0x1A80; 0x1A90; 0x1B50; 0x1BB0; 0x1C40; 0x1C50;
   0xA620; 0xA8D0; 0xA900; 0xA9D0; 0xA9F0; 0xAA50; 0xABF0; 0xFF10; 0x104A0;
   0x10D30; 0x11066; 0x110F0; 0x11136; 0x111D0; 0x112F0; 0x11450; 0x114D0;
   0x11650; 0x116C0; 0x11730; 0x118E0; 0x11950; 0x11C50; 0x11D50; 0x11DA0;
   0x16A60; 0x16AC0; 0x16B50; 0x1D7CE; 0x1D7D8; 0x1D7E2; 0x1D7EC; 0x1D7F6;
   0x1E140; 0x1E2F0; 0x1E950; 0x1FBF0]%N.

(** The decimal value of a character, when it is a decimal digit. *)
Fixpoint decimal_in (zeros : list N) (c : char) : option Z :=
  match zeros with
  | [] => None
  | z :: zs =>
      if ((z <=? c) && (c <? z + 10))%N then Some (Z.of_N (c - z))
      else decimal_in zs c
  end.

Definition decimal_value (c : char) : option Z := decimal_in decimal_zeros c.

(** [Py_UNICODE_ISDECIMAL]: the regex class [\d] on [str] patterns. *)
Definition isdecimal (c : char) : bool :=
  match decimal_value c with Some _ => true | None => false end.

(** The regex class [[가-힣]]. *)
Definition is_hangul_syllable (c : char) : bool :=
  ((chr1 "가" <=? c) && (c <=? chr1 "힣"))%N.

(** [sub in s] on strings. *)
Fixpoint startswith (sub s : str) : bool :=
  match sub, s with
  | [], _ => true
  | x :: sub', y :: s' => char_eqb x y && startswith sub' s'
  | _ :: _, [] => false
  end.

Fixpoint str_in (sub s : str) : bool :=
  startswith sub s ||
  match s with
  | [] => false
  | _ :: s' => str_in sub s'
  end.

(** [s.replace(old, new)] for a one-character [old]. *)
Definition replace1 (old : char) (new : str) (s : str) : str :=
  flat_map (fun c => if char_eqb c old then new else [c]) s.

(** [''.join(parts)]. *)
Definition join (parts : list str) : str := List.concat parts.

(** [s.split()]: maximal runs of non-whitespace characters; [cur] is the
    run being read. *)
Fixpoint split_from (cur : str) (s : str) : list str :=
  match s with
  | [] => match cur with [] => [] | _ => [cur] end
  | c :: s' =>
      if isspace c
      then match cur with
           | [] => split_from [] s'
           | _ => cur :: split_from [] s'
           end
      else split_from (cur ++ [c]) s'
  end.

Definition split (s : str) : list str := split_from [] s.

Fixpoint lstrip (s : str) : str :=
  match s with
  | c :: s' => if isspace c then lstrip s' else s
  | [] => []
  end.

Definition rstrip (s : str) : str := rev (lstrip (rev s)).

(** [s.strip()]. *)
Definition strip (s : str) : str := rstrip (lstrip s).

(** ** Exceptions *)

Inductive exn : Type :=
| IndexError
| KeyError
| TypeError
| ValueError
| AttributeError
| ReError
| OverflowError
| RequestError.

Inductive outcome (A : Type) : Type :=
| Ok (a : A)
| Raise (e : exn).

Arguments Ok {A} a.
Arguments Raise {A} e.

Definition bind {A B : Type} (m : outcome A) (f : A -> outcome B) : outcome B :=
  match m with
  | Ok a => f a
  | Raise e => Raise e
  end.

Notation "x <- m ;; k" := (bind m (fun x => k))
  (at level 61, m at next level, right associativity).

(** [l[i]] for [i >= 0]. *)
Definition getitem {A : Type} (l : list A) (i : nat) : outcome A :=
  match nth_error l i with
  | Some a => Ok a
  | None => Raise IndexError
  end.

(** [l[lo:hi]] and [l[lo:]], with Python's clamping of the bounds. *)
Definition clamp_index (len i : Z) : nat :=
  Z.to_nat (if (i <? 0)%Z then Z.max 0 (i + len) else Z.min i len).

Definition slice {A : Type} (l : list A) (lo : Z) (hi : option Z) : list A :=
  let len := Z.of_nat (List.length l) in
  let a := clamp_index len lo in
  let b := match hi with Some h => clamp_index len h | None => List.length l end in
  firstn (b - a) (skipn a l).

(** ** Regular expressions

    The fragment of Python's [re] that the source uses, with the
    backtracking semantics of the engine: repetitions are greedy, the left
    branch of an alternative is tried first, and one capturing group is
    recorded. *)

Inductive regex : Type :=
| Chr (c : char)                                      (* a literal character *)
| Cls (p : char -> bool)                              (* a character class *)
| Rep (p : char -> bool) (lo : nat) (hi : option nat) (* greedy class{lo,hi} *)
| Seq (r1 r2 : regex)
| Alt (r1 r2 : regex)
| Group (r : regex)                                   (* group 1 *)
| Empty.

Definition seq_of (rs : list regex) : regex := fold_right Seq Empty rs.

Definition Star (p : char -> bool) : regex := Rep p 0 None.
Definition Plus (p : char -> bool) : regex := Rep p 1 None.
Definition Opt (p : char -> bool) : regex := Rep p 0 (Some 1).

Record match_obj : Type := {
  group0 : str;          (* the text matched *)
  group1 : option str;   (* the text of group 1, if it took part *)
  rest : str             (* the text after the match *)
}.

Section Matcher.
Variable R : Type.

Definition room (hi : option nat) : bool :=
  match hi with Some O => false | _ => true end.

(** Greedy repetition: take one more character while allowed, fall back
    to stopping here when the continuation fails further on. *)
Fixpoint rep (p : char -> bool) (lo : nat) (hi : option nat) (s : str)
    (k : str -> option R) : option R :=
  let stop := match lo with O => k s | S _ => None end in
  match s with
  | c :: s' =>
      if p c && room hi
      then match rep p (pred lo) (option_map pred hi) s' k with
           | Some x => Some x
           | None => stop
           end
      else stop
  | [] => stop
  end.

Fixpoint rmatch (r : regex) (s : str) (g : option str)
    (k : str -> option str -> option R) : option R :=
  match r with
  | Chr c =>
      match s with
      | x :: s' => if char_eqb x c then k s' g else None
      | [] => None
      end
  | Cls p =>
      match s with
      | x :: s' => if p x then k s' g else None
      | [] => None
      end
  | Rep p lo hi => rep p lo hi s (fun s' => k s' g)
  | Seq r1 r2 => rmatch r1 s g (fun s' g' => rmatch r2 s' g' k)
  | Alt r1 r2 =>
      match rmatch r1 s g k with
      | Some x => Some x
      | None => rmatch r2 s g k
      end
  | Group r1 =>
      rmatch r1 s g
        (fun s' _ => k s' (Some (firstn (List.length s - List.length s') s)))
  | Empty => k s g
  end.
End Matcher.

Arguments rep {R} p lo hi s k.
Arguments rmatch {R} r s g k.

(** [re.match(r, s)]: a match anchored at the start of [s]. *)
Definition re_match (r : regex) (s : str) : option match_obj :=
  rmatch r s None
    (fun s' g =>
       Some {| group0 := firstn (List.length s - List.length s') s;
               group1 := g; rest := s' |}).

(** [re.search(r, s)]: the leftmost match. *)
Fixpoint re_search (r : regex) (s : str) : option match_obj :=
  match re_match r s with
  | Some m => Some m
  | None =>
      match s with
      | [] => None
      | _ :: s' => re_search r s'
      end
  end.

(** [re.finditer(r, s)]: successive non-overlapping matches.  After an empty
    match the scan moves on by one character (no pattern of the source
    matches the empty string). *)
Fixpoint finditer_from (fuel : nat) (r : regex) (s : str) : list match_obj :=
  match fuel with
  | O => []
  | S fuel' =>
      match re_search r s with
      | None => []
      | Some m =>
          m :: match group0 m with
               | [] =>
                   match rest m with
                   | [] => []
                   | _ :: s' => finditer_from fuel' r s'
                   end
               | _ :: _ => finditer_from fuel' r (rest m)
               end
      end
  end.

Definition re_finditer (r : regex) (s : str) : list match_obj :=
  finditer_from (S (List.length s)) r s.

Definition is_some {A : Type} (o : option A) : bool :=
  match o with Some _ => true | None => false end.

(** ** [clean_korean_text] *)

(** [[가-힣]] *)
Definition hangul_re : regex := Cls is_hangul_syllable.

Definition clean_korean_text (text : str) : str :=
  join (map group0 (re_finditer hangul_re text)).

(** ** [extract_address_and_building_from_pdf] *)

Definition newline : char := 0x0A%N.

(** [\[\s*집\s*합\s*건\s*물\s*\]\s*([^\n]+)] *)
Definition marker_re : regex :=
  seq_of [Chr (chr1 "["); Star isspace; Chr (chr1 "집"); Star isspace;
          Chr (chr1 "합"); Star isspace; Chr (chr1 "건"); Star isspace;
          Chr (chr1 "물"); Star isspace; Chr (chr1 "]"); Star isspace;
          Group (Plus (fun c => negb (char_eqb c newline)))].

(** [\d{1,4}-?\d*] *)
Definition lot_re : regex :=
  seq_of [Rep isdecimal 1 (Some 4); Opt (fun c => char_eqb c (chr1 "-"));
          Star isdecimal].

(** [(제|\d+호|층|동|\d+)] *)
Definition suffix_re : regex :=
  Group (Alt (Chr (chr1 "제"))
        (Alt (Seq (Plus isdecimal) (Chr (chr1 "호")))
        (Alt (Chr (chr1 "층"))
        (Alt (Chr (chr1 "동"))
             (Plus isdecimal))))).

(** The text recognised from the document: each page's text and a newline. *)
Definition recognized_text (pages : list str) : str :=
  fold_left (fun text page_text => text ++ page_text ++ [newline]) pages [].

(** The loop over [enumerate(words)], from index [i] on. *)
Fixpoint scan_words (i : Z) (words : list str) (dong_end_idx : Z) : Z :=
  match words with
  | [] => dong_end_idx
  | word :: words' =>
      let dong_end_idx :=
        if str_in (lit "동") word then i else dong_end_idx in
      if is_some (re_match lot_re word) then (i - 1)%Z
      else scan_words (i + 1) words' dong_end_idx
  end.

(** The part of the function after the marker line is found. *)
Definition parse_marker_line (line : str) : outcome (option str * option str) :=
  let words := split line in
  let dong_end_idx := scan_words 0 words (-1) in
  if (dong_end_idx <? 3)%Z then Ok (None, None)
  else
    region <- getitem words 0 ;;
    w1 <- getitem words 1 ;;
    w2 <- getitem words 2 ;;
    let citygu := w1 ++ w2 in
    let dong := join (slice words 3 (Some (dong_end_idx + 1)%Z)) in
    let address := region ++ lit " " ++ citygu ++ lit " " ++ dong in
    let building_words := slice words (dong_end_idx + 2)%Z None in
    let cleaned :=
      filter (fun w => negb (is_some (re_search suffix_re w))) building_words in
    let building_name := clean_korean_text (join cleaned) in
    Ok (Some (strip address), Some building_name).

Definition extract_address_and_building_from_text (text : str)
    : outcome (option str * option str) :=
  match re_search marker_re text with
  | None => Ok (None, None)
  | Some m =>
      match group1 m with
      | None => Raise AttributeError
      | Some g => parse_marker_line (strip g)
      end
  end.

(** The document enters as the texts the recogniser returns for its pages. *)
Definition extract_address_and_building_from_pdf (pages : list str)
    : outcome (option str * option str) :=
  extract_address_and_building_from_text (recognized_text pages).

(** ** [get_lawd_cd] *)

(** A row of the reference table as [read_csv(..., dtype=str)] yields it: a
    cell is a string, or missing (NaN) when the field is empty. *)
Record code_row : Type := {
  sido_name : option str;          (* "시도명" *)
  sigungu_name : option str;       (* "시군구명" *)
  eupmyeondong_name : option str;  (* "읍면동명" *)
  lawd_code : option str           (* "법정동코드" *)
}.

(** [cell == s]: a missing cell equals nothing. *)
Definition cell_eq (cell : option str) (s : str) : bool :=
  match cell with
  | Some x => str_eqb x s
  | None => false
  end.

Definition row_matches (sido sigungu eupmyeondong : str) (r : code_row) : bool :=
  cell_eq (sido_name r) sido && cell_eq (sigungu_name r) sigungu
  && cell_eq (eupmyeondong_name r) eupmyeondong.

Definition get_lawd_cd (address : str) (table : list code_row)
    : outcome (option str) :=
  let parts := split address in
  if (List.length parts <? 3)%nat then Ok None
  else
    sido <- getitem parts 0 ;;
    sigungu <- getitem parts 1 ;;
    eupmyeondong <- getitem parts 2 ;;
    match filter (row_matches sido sigungu eupmyeondong) table with
    | r :: _ =>
        match lawd_code r with
        | Some code => Ok (Some (firstn 5 code))
        | None => Raise TypeError
        end
    | [] => Ok None
    end.

(** ** [get_latest_officetel_trade] *)

(** An [item] element of a registry response: the text of each child that
    the code reads, or nothing when [item.find] returns [None]. *)
Record item : Type := {
  offiNm : option str;
  excluUseAr : option str;
  dealYear : option str;
  dealMonth : option str;
  dealDay : option str;
  dealAmount : option str
}.

(** An entry of [result]. *)
Record trade : Type := {
  complex_name : str;   (* "단지명" *)
  excl_area : Q;        (* "전용면적" *)
  contract_day : str;   (* "계약일" *)
  amount : str          (* "거래금액(만원)" *)
}.

(** A row of [df_filtered] once the area difference and the parsed contract
    date are added and rows without a date are dropped. *)
Record candidate : Type := {
  cand_trade : trade;
  area_diff : Q;        (* "면적차이" *)
  contract_date : Z     (* "계약일" as a timestamp *)
}.

(** [x.text] on the result of [item.find]. *)
Definition text_of (tag : option str) : outcome str :=
  match tag with
  | Some t => Ok t
  | None => Raise AttributeError
  end.

Fixpoint digits_from (fuel n : nat) (acc : str) : str :=
  match fuel with
  | O => acc
  | S fuel' =>
      let acc' := N.of_nat (48 + n mod 10) :: acc in
      if n / 10 =? 0 then acc' else digits_from fuel' (n / 10) acc'
  end.

(** [f"{n:02d}"] *)
Definition format_02d (n : nat) : str :=
  if n <? 10 then lit "0" ++ digits_from (S n) n [] else digits_from (S n) n [].

(** [sort_values]: a stable sort, here by insertion. *)
Fixpoint insert_sorted {A : Type} (le : A -> A -> bool) (x : A) (l : list A)
    : list A :=
  match l with
  | [] => [x]
  | y :: l' => if le x y then x :: l else y :: insert_sorted le x l'
  end.

Fixpoint sort_values {A : Type} (le : A -> A -> bool) (l : list A) : list A :=
  match l with
  | [] => []
  | x :: l' => insert_sorted le x (sort_values le l')
  end.

(** The nearest integer to [n / d] for [d > 0], ties to the even one. *)
Definition round_half_even (n d : Z) : Z :=
  let q := (n / d)%Z in
  match (2 * (n mod d) ?= d)%Z with
  | Lt => q
  | Gt => (q + 1)%Z
  | Eq => if Z.even q then q else (q + 1)%Z
  end.

(** The [e] with [2^e <= n / d < 2^(e+1)], for [n, d > 0]. *)
Definition floor_log2 (n d : Z) : Z :=
  let e := (Z.log2 n - Z.log2 d)%Z in
  if (0 <=? e)%Z
  then if (d * 2 ^ e <=? n)%Z then e else (e - 1)%Z
  else if (d <=? n * 2 ^ (- e))%Z then e else (e - 1)%Z.

(** The float nearest to a rational: 53 significant bits, exponents from
    -1074 on, ties to even.  What rounds beyond the largest float becomes
    [2^1024], which stands for infinity. *)
Definition binary64 (x : Q) : Q :=
  let n := Z.abs (Qnum x) in
  let d := Zpos (Qden x) in
  if (n =? 0)%Z then (0 # 1)%Q
  else
    let shift := Z.max (floor_log2 n d - 52) (-1074) in
    let magnitude :=
      if (0 <=? shift)%Z
      then inject_Z
             (Z.min (round_half_even n (d * 2 ^ shift) * 2 ^ shift) (2 ^ 1024))
      else Qmake (round_half_even (n * 2 ^ (- shift)) d)
                 (Z.to_pos (2 ^ (- shift))) in
    if (Qnum x <? 0)%Z then Qopp magnitude else magnitude.

(** The order of [["면적차이", "계약일"], ascending=[True, False]]. *)
Definition candidate_le (a b : candidate) : bool :=
  match Qcompare (area_diff a) (area_diff b) with
  | Lt => true
  | Gt => false
  | Eq => (contract_date b <=? contract_date a)%Z
  end.

(** A pattern without regex metacharacters. *)
Definition is_meta (c : char) : bool :=
  existsb (char_eqb c) (lit ".^$*+?{}[]\|()").

Definition plain_pattern (pat : str) : bool := forallb (fun c => negb (is_meta c)) pat.

(** The regex of a plain pattern: its characters in sequence. *)
Definition literal_re (pat : str) : regex := seq_of (map Chr pat).

Section TransactionMatcher.
(** The registry: credential, region code and month to the [item]
    elements of the response, or the exception of the request. *)
Variable registry : str -> str -> str -> outcome (list item).
(** Python's [float] on a string; the values are kept as rationals. *)
Variable py_float : str -> outcome Q.
(** [pd.to_datetime(column, errors="coerce")]: a timestamp or nothing (NaT)
    for each entry of the column. *)
Variable to_datetime : list str -> list (option Z).
(** [re.compile], which [Series.str.contains] applies to its pattern. *)
Variable re_compile : str -> outcome regex.

(** The dictionary built in the [try] block. *)
Definition parse_item (it : item) : outcome trade :=
  name <- text_of (offiNm it) ;;
  a <- text_of (excluUseAr it) ;;
  area <- py_float a ;;
  y <- text_of (dealYear it) ;;
  m <- text_of (dealMonth it) ;;
  d <- text_of (dealDay it) ;;
  amt <- text_of (dealAmount it) ;;
  Ok {| complex_name := name; excl_area := area;
        contract_day := y ++ lit "-" ++ m ++ lit "-" ++ d;
        amount := amt |}.

(** [for item in items: try: result.append(...) except: continue] *)
Fixpoint accumulate (items : list item) (result : list trade) : list trade :=
  match items with
  | [] => result
  | it :: items' =>
      match parse_item it with
      | Ok t => accumulate items' (result ++ [t])
      | Raise _ => accumulate items' result
      end
  end.

(** [for month in range(1, 13): ...] *)
Fixpoint query_months (service_key lawd_cd : str) (months : list nat)
    (result : list trade) : outcome (list trade) :=
  match months with
  | [] => Ok result
  | month :: months' =>
      let deal_ymd := lit "2024" ++ format_02d month in
      items <- registry service_key lawd_cd deal_ymd ;;
      query_months service_key lawd_cd months' (accumulate items result)
  end.

(** [df[name]] on [pd.DataFrame(result)]: the frame of an empty list has no
    columns. *)
Definition frame_column {B : Type} (df : list trade) (col : trade -> B)
    : outcome (list B) :=
  match df with
  | [] => Raise KeyError
  | _ :: _ => Ok (map col df)
  end.

(** [df[mask]] *)
Fixpoint select_rows {A : Type} (df : list A) (mask : list bool) : list A :=
  match df, mask with
  | r :: df', b :: mask' =>
      if b then r :: select_rows df' mask' else select_rows df' mask'
  | _, _ => []
  end.

(** Adding the two columns and [dropna(subset=["계약일"])]; the area
    difference is the float that the subtraction of floats gives. *)
Fixpoint with_dates (area : Q) (rows : list trade) (dates : list (option Z))
    : list candidate :=
  match rows, dates with
  | r :: rows', d :: dates' =>
      match d with
      | Some ts =>
          {| cand_trade := r;
             area_diff := binary64 (Qabs (excl_area r - area));
             contract_date := ts |} :: with_dates area rows' dates'
      | None => with_dates area rows' dates'
      end
  | _, _ => []
  end.

(** From [df = pd.DataFrame(result)] to the end of the function. *)
Definition best_match (result : list trade) (building_name : str) (area : Q)
    : outcome (option candidate) :=
  names <- frame_column result complex_name ;;
  pat <- re_compile building_name ;;
  let mask := map (fun x => is_some (re_search pat x)) names in
  let df_filtered := select_rows result mask in
  let dated :=
    with_dates area df_filtered (to_datetime (map contract_day df_filtered)) in
  match dated with
  | [] => Ok None
  | _ :: _ =>
      match sort_values candidate_le dated with
      | latest :: _ => Ok (Some latest)
      | [] => Raise IndexError
      end
  end.

Definition get_latest_officetel_trade (lawd_cd building_name : str) (area : Q)
    (service_key : str) : outcome (option candidate) :=
  result <- query_months service_key lawd_cd (seq 1 12) [] ;;
  best_match result building_name area.
End TransactionMatcher.

(** ** [parse_ocr_text_to_features] *)

(** [int(keyword in text)] *)
Definition contains (text keyword : str) : Z :=
  if str_in keyword text then 1%Z else 0%Z.

(** [근저당권설정금(\d+,\d+|\d+)] *)
Definition mortgage_re : regex :=
  Seq (literal_re (lit "근저당권설정금"))
      (Group (Alt (seq_of [Plus isdecimal; Chr (chr1 ","); Plus isdecimal])
                  (Plus isdecimal))).

(** [re.findall] for a pattern with one group: the group of each match. *)
Definition re_findall_group (r : regex) (s : str) : list str :=
  map (fun m => match group1 m with Some g => g | None => [] end)
      (re_finditer r s).

(** The number of digits [int] converts at most (the default limit). *)
Definition int_max_str_digits : Z := 4300%Z.

(** The quotient [a / b] of two integers raises OverflowError when it
    rounds beyond the largest float. *)
Definition float_limit : Z := (2 ^ 1024 - 2 ^ 970)%Z.

Definition quotient_overflows (a b : Z) : bool :=
  (float_limit * Z.abs b <=? Z.abs a)%Z.

(** [int(s)] on a string of decimal digits. *)
Fixpoint int_digits (s : str) (acc : Z) : outcome Z :=
  match s with
  | [] => Ok acc
  | c :: s' =>
      match decimal_value c with
      | Some d => int_digits s' (10 * acc + d)%Z
      | None => Raise ValueError
      end
  end.

Definition py_int (s : str) : outcome Z :=
  match s with
  | [] => Raise ValueError
  | _ :: _ =>
      if (int_max_str_digits <? Z.of_nat (List.length s))%Z
      then Raise ValueError
      else int_digits s 0%Z
  end.

Fixpoint map_outcome {A B : Type} (f : A -> outcome B) (l : list A)
    : outcome (list B) :=
  match l with
  | [] => Ok []
  | a :: l' => b <- f a ;; bs <- map_outcome f l' ;; Ok (b :: bs)
  end.

(** [max(values)] of a non-empty list. *)
Definition max_of (v : Z) (values : list Z) : Z := fold_left Z.max values v.

(** The quotient [max_value / 1_0000_0000] is kept exact, as a rational,
    when it is in the range of the floats. *)
Definition normalize_mortgage (text : str) : outcome Q :=
  let matches := re_findall_group mortgage_re text in
  values <- map_outcome (fun m => py_int (replace1 (chr1 ",") [] m)) matches ;;
  match values with
  | [] => Ok (0 # 1)%Q
  | v :: values' =>
      let max_value := max_of v values' in
      if quotient_overflows max_value 100000000 then Raise OverflowError
      else Ok (inject_Z max_value / inject_Z 100000000)%Q
  end.

Record features : Type := {
  jeonse_ratio : Q;              (* "전세가율" *)
  trust : Z;                     (* "신탁" *)
  mortgage_normalized : Q;       (* "근저당정규화" *)
  provisional_seizure : Z;       (* "가압류" *)
  seizure : Z;                   (* "압류" *)
  ownership_transfer : Z;        (* "소유권이전" *)
  lease_registration_order : Z   (* "임차권등기명령" *)
}.

Definition parse_ocr_text_to_features (text : str) (ratio : Q) : outcome features :=
  let text := replace1 (chr1 " ") [] text in
  let trust_v := contains text (lit "신탁") in
  mortgage <- normalize_mortgage text ;;
  Ok {| jeonse_ratio := ratio;
        trust := trust_v;
        mortgage_normalized := mortgage;
        provisional_seizure := contains text (lit "가압류");
        seizure := contains text (lit "압류");
        ownership_transfer := contains text (lit "소유권이전");
        lease_registration_order := contains text (lit "임차권등기명령") |}.

(** ** [interpret_risk_score] *)

Definition ge_score (score : Q) (bound : Z) : bool := Qle_bool (inject_Z bound) score.

Definition interpret_risk_score (score : Q) : str * str :=
  if ge_score score 80 then
    (lit "매우 높음", lit "⚠️ 보증금 반환이 어려울 가능성이 매우 높습니다.")
  else if ge_score score 60 then
    (lit "높음", lit "⚠️ 보증금 반환에 위험 요소가 존재합니다.")
  else if ge_score score 40 then
    (lit "보통", lit "⚠️ 일부 위험 요소가 있습니다.")
  else if ge_score score 20 then
    (lit "낮음", lit "✅ 위험 요소는 적은 편입니다.")
  else
    (lit "매우 낮음", lit "✅ 위험 요소가 거의 없습니다.").

(** ** [extract_text_from_pdf_with_ocr] *)

(** The same loop over the pages as in the address parse. *)
Definition extract_text_from_pdf_with_ocr (pages : list str) : str :=
  fold_left (fun full_text text => full_text ++ text ++ [newline]) pages [].

(** * main.py *)

(** ** [int] on a string *)

(** The blanks [int] skips at both ends: the Unicode whitespace without the
    four separators U+001C to U+001F. *)
Definition int_blank (c : char) : bool :=
  isspace c && negb ((0x1C <=? c) && (c <=? 0x1F))%N.

Fixpoint lstrip_by (p : char -> bool) (s : str) : str :=
  match s with
  | c :: s' => if p c then lstrip_by p s' else s
  | [] => []
  end.

Definition strip_by (p : char -> bool) (s : str) : str :=
  rev (lstrip_by p (rev (lstrip_by p s))).

(** Decimal digits with single underscores between them; [after_digit]
    tells whether the previous character was a digit. *)
Fixpoint int_body (s : str) (acc : Z) (after_digit : bool) : outcome Z :=
  match s with
  | [] => if after_digit then Ok acc else Raise ValueError
  | c :: s' =>
      if char_eqb c (chr1 "_")
      then if after_digit then int_body s' acc false else Raise ValueError
      else match decimal_value c with
           | Some d => int_body s' (10 * acc + d)%Z true
           | None => Raise ValueError
           end
  end.

(** [int(s)] in base 10. *)
Definition int_of_str (s : str) : outcome Z :=
  let stripped := strip_by int_blank s in
  if (int_max_str_digits
      <? Z.of_nat (List.length (filter isdecimal stripped)))%Z
  then Raise ValueError
  else
    match stripped with
    | [] => Raise ValueError
    | c :: s' =>
        if char_eqb c (chr1 "+") then int_body s' 0%Z false
        else if char_eqb c (chr1 "-")
        then z <- int_body s' 0%Z false ;; Ok (- z)%Z
        else int_body (c :: s') 0%Z false
    end.

(** ** [generate_llm_explanation] and [analyze_pdf] *)

(** An entry of the attribution list. *)
Record attribution : Type := {
  feature : str;
  impact : Q;
  direction : str
}.

(** [sorted(l, key=lambda x: abs(key x), reverse=True)]: a stable sort,
    larger magnitudes first. *)
Definition sorted_by_magnitude {A : Type} (key : A -> Q) (l : list A) : list A :=
  sort_values (fun a b => Qle_bool (Qabs (key b)) (Qabs (key a))) l.

(** The three entries the prompt is built from. *)
Definition top_factors (shap_list : list attribution) : list attribution :=
  firstn 3 (sorted_by_magnitude impact shap_list).

(** [df.columns] of the one-row frame of the features. *)
Definition feature_columns : list str :=
  [lit "전세가율"; lit "신탁"; lit "근저당정규화"; lit "가압류"; lit "압류";
   lit "소유권이전"; lit "임차권등기명령"].

(** The attribution list of the response. *)
Definition shap_result_of (values : list Q) : list attribution :=
  map (fun kv : str * Q =>
         {| feature := fst kv; impact := snd kv;
            direction := if Qle_bool (snd kv) 0 then lit "down" else lit "up" |})
      (sorted_by_magnitude snd (combine feature_columns values)).

(** The body of a successful response. *)
Record analysis : Type := {
  r_address : str;
  r_building : str;
  r_sale_price : Z;
  r_jeonse_price : Z;
  r_jeonse_ratio : Q;
  r_risk_score : Q;
  r_risk_level : str;
  r_risk_message : str;
  r_shap : list attribution;
  r_llm_explanation : str
}.

Inductive response : Type :=
| JSONError (status_code : Z) (error : str)
| JSONResult (body : analysis).

(** How a call of the endpoint ends: with a response, or with an exception
    that nothing catches. *)
Inductive endpoint_error : Type :=
| Propagated (e : exn)
| ZeroDivisionError.

Inductive endpoint_result : Type :=
| Responded (r : response)
| Failed (e : endpoint_error).

Definition run {A : Type} (m : outcome A) (k : A -> endpoint_result)
    : endpoint_result :=
  match m with
  | Ok a => k a
  | Raise e => Failed (Propagated e)
  end.

(** [not x] for a value that is [None] or a string. *)
Definition falsy (x : option str) : bool :=
  match x with
  | None | Some [] => true
  | Some (_ :: _) => false
  end.

Section Endpoint.
(** The reference table read from "./법정동코드.csv". *)
Variable table : list code_row.
Variable registry : str -> str -> str -> outcome (list item).
Variable py_float : str -> outcome Q.
Variable to_datetime : list str -> list (option Z).
Variable re_compile : str -> outcome regex.
(** [SERVICE_KEY] *)
Variable service_key : str.
(** The scoring model on the one-row frame, and its attribution values. *)
Variable predict : features -> Q.
Variable shap_values : features -> list Q.
(** [round(x, 2)] *)
Variable round2 : Q -> Q.
(** The prompt built from the score, the level and the top factors, sent to
    the text model, and the stripped text of its answer. *)
Variable summary_of : Q -> str -> list attribution -> outcome str.

Definition generate_llm_explanation (score : Q) (level : str)
    (shap_list : list attribution) : outcome str :=
  summary_of score level (top_factors shap_list).

(** The document enters as the texts recognised for its pages, as in
    [extract_address_and_building_from_pdf]; the second recognition of the
    same file is taken to return the same texts.  Saving the upload and
    loading the model are left out. *)
Definition analyze_pdf (pages : list str) (area : Q) (jeonse_price : Z)
    : endpoint_result :=
  run (extract_address_and_building_from_pdf pages) (fun extracted =>
  let address := fst extracted in
  let building_name := snd extracted in
  match address, building_name with
  | Some address_s, Some building_s =>
      if falsy address || falsy building_name
      then Responded (JSONError 400 (lit "주소 또는 건물명 추출 실패"))
      else
        run (get_lawd_cd address_s table) (fun lawd_cd =>
        match lawd_cd with
        | None | Some [] =>
            Responded (JSONError 400 (lit "법정동코드 조회 실패"))
        | Some lawd_cd_s =>
            run (get_latest_officetel_trade registry py_float to_datetime
                   re_compile lawd_cd_s building_s area service_key)
              (fun latest_info =>
            match latest_info with
            | None => Responded (JSONError 404 (lit "실거래가 조회 실패"))
            | Some latest =>
                run (int_of_str
                       (replace1 (chr1 ",") [] (amount (cand_trade latest))))
                  (fun n =>
                let sale_price := (n * 10000)%Z in
                if (sale_price =? 0)%Z then Failed ZeroDivisionError
                else if quotient_overflows jeonse_price sale_price
                then Failed (Propagated OverflowError)
                else
                  let jeonse_ratio :=
                    (inject_Z jeonse_price / inject_Z sale_price)%Q in
                  let ocr_text := extract_text_from_pdf_with_ocr pages in
                  run (parse_ocr_text_to_features ocr_text jeonse_ratio)
                    (fun feats =>
                  let score := predict feats in
                  let level := fst (interpret_risk_score score) in
                  let message := snd (interpret_risk_score score) in
                  let shap_result := shap_result_of (shap_values feats) in
                  run (generate_llm_explanation score level shap_result)
                    (fun llm_summary =>
                  Responded (JSONResult
                    {| r_address := address_s;
                       r_building := building_s;
                       r_sale_price := sale_price;
                       r_jeonse_price := jeonse_price;
                       r_jeonse_ratio := round2 (jeonse_ratio * inject_Z 100)%Q;
                       r_risk_score := round2 score;
                       r_risk_level := level;
                       r_risk_message := message;
                       r_shap := shap_result;
                       r_llm_explanation := llm_summary |}))))
            end)
        end)
  | _, _ => Responded (JSONError 400 (lit "주소 또는 건물명 추출 실패"))
  end).
End Endpoint.

(** ** Vocabulary of the statements *)

(** A token: a non-empty run of characters without whitespace. *)
Definition nospace (w : str) : Prop := forallb (fun c => negb (isspace c)) w = true.
Definition token (w : str) : Prop := w <> [] /\ nospace w.

(** The strings a regex denotes, with the group recorded before and after. *)
Fixpoint lang (r : regex) (pre : str) (g g' : option str) : Prop :=
  match r with
  | Chr c => pre = [c] /\ g' = g
  | Cls p => exists c, pre = [c] /\ p c = true /\ g' = g
  | Rep p lo hi =>
      forallb p pre = true /\ lo <= List.length pre /\
      match hi with Some h => List.length pre <= h | None => True end /\
      g' = g
  | Seq r1 r2 =>
      exists p1 p2 gm, pre = p1 ++ p2 /\ lang r1 p1 g gm /\ lang r2 p2 gm g'
  | Alt r1 r2 => lang r1 pre g g' \/ lang r2 pre g g'
  | Group r1 => (exists g1, lang r1 pre g g1) /\ g' = Some pre
  | Empty => pre = [] /\ g' = g
  end.

(** A regex every match of which records the group. *)
Fixpoint sets_group (r : regex) : bool :=
  match r with
  | Group _ => true
  | Seq r1 r2 => sets_group r1 || sets_group r2
  | Alt r1 r2 => sets_group r1 && sets_group r2
  | _ => false
  end.

(** [re.fullmatch]: a match that ends where the string does. *)
Definition re_fullmatch (r : regex) (s : str) : bool :=
  is_some (rmatch r s None
             (fun s' g => match s' with [] => Some g | _ :: _ => None end)).

(** A lot number as the specification words it: the whole token is one to
    four digits, optionally followed by "-" and digits. *)
Definition lot_number_re : regex :=
  Seq (Rep isdecimal 1 (Some 4))
      (Alt (Seq (Chr (chr1 "-")) (Star isdecimal)) Empty).
Definition lot_number_token (w : str) : bool := re_fullmatch lot_number_re w.

(** Words that do not match the lot-number pattern, words without "동". *)
Definition no_lot (w : str) : bool := negb (is_some (re_match lot_re w)).
Definition no_dong (w : str) : bool := negb (str_in (lit "동") w).

(** A record that the [try] block parses. *)
Definition well_formed (py_float : str -> outcome Q) (it : item) : bool :=
  match parse_item py_float it with Ok _ => true | Raise _ => false end.

(** A registry whose responses carry the well-formed records only. *)
Definition without_malformed (py_float : str -> outcome Q)
    (registry : str -> str -> str -> outcome (list item))
    : str -> str -> str -> outcome (list item) :=
  fun key lawd_cd deal_ymd =>
    items <- registry key lawd_cd deal_ymd ;;
    Ok (filter (well_formed py_float) items).

(** The records of a response that the [try] block parses, in their order. *)
Definition parsed_records (py_float : str -> outcome Q) (items : list item)
    : list trade :=
  flat_map (fun it => match parse_item py_float it with
                      | Ok t => [t]
                      | Raise _ => []
                      end) items.

(** The month keys of the twelve requests. *)
Definition deal_months : list str :=
  [lit "202401"; lit "202402"; lit "202403"; lit "202404"; lit "202405";
   lit "202406"; lit "202407"; lit "202408"; lit "202409"; lit "202410";
   lit "202411"; lit "202412"].

(** The five levels, from the lowest to the highest. *)
Definition level_rank (level : str) : nat :=
  if str_eqb level (lit "매우 높음") then 4
  else if str_eqb level (lit "높음") then 3
  else if str_eqb level (lit "보통") then 2
  else if str_eqb level (lit "낮음") then 1
  else 0.

(** An entry whose magnitude is at least that of another. *)
Definition larger {A : Type} (key : A -> Q) (a b : A) : Prop :=
  (Qabs (key b) <= Qabs (key a))%Q.

(** ** A small registry to run the matcher on *)

(** [float] on a string of decimal digits. *)
Definition float_of_digits (s : str) : outcome Q :=
  z <- py_int s ;; Ok (inject_Z z).

(** Contract days of the form year-month-day, numbered so that later days
    get larger numbers; anything else is not a date. *)
Definition day_number (s : str) : option Z :=
  match split (replace1 (chr1 "-") (lit " ") s) with
  | [y; m; d] =>
      match py_int y, py_int m, py_int d with
      | Ok y', Ok m', Ok d' => Some (y' * 10000 + m' * 100 + d')%Z
      | _, _, _ => None
      end
  | _ => None
  end.

Definition compile_plain (pat : str) : outcome regex :=
  if plain_pattern pat then Ok (literal_re pat) else Raise ReError.

Definition sample_item (name area day price : string) : item :=
  {| offiNm := Some (lit name); excluUseAr := Some (lit area);
     dealYear := Some (lit "2024"); dealMonth := Some (lit "3");
     dealDay := Some (lit day); dealAmount := Some (lit price) |}.

(** A record without its [offiNm] child. *)
Definition nameless_item : item :=
  {| offiNm := None; excluUseAr := Some (lit "84");
     dealYear := Some (lit "2024"); dealMonth := Some (lit "3");
     dealDay := Some (lit "9"); dealAmount := Some (lit "31,000") |}.

Definition sample_registry (key lawd_cd deal_ymd : str) : outcome (list item) :=
  if str_eqb deal_ymd (lit "202403")
  then Ok [sample_item "가나오피스텔" "84" "15" "35,000"; nameless_item;
           sample_item "가나오피스텔" "59" "20" "25,000";
           sample_item "가나오피스텔" "84" "28" "36,500";
           sample_item "다라빌" "84" "30" "40,000"]
  else Ok [].

Definition sample_result : list trade :=
  [ {| complex_name := lit "가나오피스텔"; excl_area := inject_Z 84;
       contract_day := lit "2024-3-15"; amount := lit "35,000" |};
    {| complex_name := lit "가나오피스텔"; excl_area := inject_Z 59;
       contract_day := lit "2024-3-20"; amount := lit "25,000" |};
    {| complex_name := lit "가나오피스텔"; excl_area := inject_Z 84;
       contract_day := lit "2024-3-28"; amount := lit "36,500" |};
    {| complex_name := lit "다라빌"; excl_area := inject_Z 84;
       contract_day := lit "2024-3-30"; amount := lit "40,000" |} ].

(** A two-page document, a one-row table and stand-ins for the scoring
    model, its attribution values, the rounding and the text model. *)
Definition sample_pages : list str :=
  [lit "[집합건물] 경기도 수원시 영통구 이의동 123-4 가나오피스텔 제5층 제501호";
   lit "을구 근저당권설정 금300000000원 가 압류"].

Definition sample_table : list code_row :=
  [{| sido_name := Some (lit "경기도");
      sigungu_name := Some (lit "수원시영통구");
      eupmyeondong_name := Some (lit "이의동");
      lawd_code := Some (lit "4111710300") |}].

Definition sample_analyze
    (table : list code_row) (registry : str -> str -> str -> outcome (list item))
    : list str -> Q -> Z -> endpoint_result :=
  analyze_pdf table registry float_of_digits (map day_number) compile_plain
    (lit "key") (fun _ => 72 # 1)%Q
    (fun _ => [(3 # 10); (-1 # 2); 0; (1 # 5); (-1 # 10); (7 # 10); (1 # 100)]%Q)
    (fun q => q) (fun _ _ _ => Ok (lit "요약")).

(** A registry whose only record has the amount "0". *)
Definition zero_amount_registry (key lawd_cd deal_ymd : str)
    : outcome (list item) :=
  if str_eqb deal_ymd (lit "202403")
  then Ok [sample_item "가나오피스텔" "84" "15" "0"]
  else Ok [].

(** * Properties *)

(** ** Strings *)

(** Literals decode to code points; [split] drops every run of whitespace. *)
Example lit_dong : lit "동" = [0xB3D9%N].
Proof. reflexivity. Qed.

Example split_example :
  split (lit "  서울특별시   강남구 ") = [lit "서울특별시"; lit "강남구"].
Proof. reflexivity. Qed.

Lemma char_eqb_eq (a b : char) : char_eqb a b = true <-> a = b.
Proof. apply N.eqb_eq. Qed.

Lemma str_eqb_eq (a b : str) : str_eqb a b = true <-> a = b.
Proof.
  revert b; induction a as [|x a IH]; intros [|y b]; simpl;
    try (split; [discriminate | congruence]); try tauto.
  rewrite andb_true_iff, char_eqb_eq, IH.
  split; [intros [-> ->]; reflexivity | intros E; inversion E; auto].
Qed.

Lemma nospace_app (a b : str) : nospace a -> nospace b -> nospace (a ++ b).
Proof. unfold nospace; intros; rewrite forallb_app; apply andb_true_iff; auto. Qed.

Lemma token_app (a b : str) : token a -> token b -> token (a ++ b).
Proof.
  intros [Na Sa] [_ Sb]; split; [|apply nospace_app; assumption].
  destruct a; [congruence | discriminate].
Qed.

Lemma nospace_snoc (cur : str) (c : char) :
  nospace cur -> isspace c = false -> nospace (cur ++ [c]).
Proof.
  intros H Hc; apply nospace_app; [assumption|].
  unfold nospace; simpl; rewrite Hc; reflexivity.
Qed.

Lemma split_from_tokens (s cur : str) :
  nospace cur -> Forall token (split_from cur s).
Proof.
  revert cur; induction s as [|c s IH]; intros cur Hcur; simpl.
  - destruct cur; constructor; [split; [discriminate | assumption] | constructor].
  - destruct (isspace c) eqn:Hc.
    + destruct cur as [|x cur'].
      * apply IH; reflexivity.
      * constructor; [split; [discriminate | assumption] | apply IH; reflexivity].
    + apply IH, nospace_snoc; assumption.
Qed.

Lemma split_tokens (s : str) : Forall token (split s).
Proof. apply split_from_tokens; reflexivity. Qed.

Lemma split_from_nospace (w s cur : str) :
  nospace w -> split_from cur (w ++ s) = split_from (cur ++ w) s.
Proof.
  revert cur; induction w as [|c w IH]; intros cur Hw; simpl.
  - rewrite app_nil_r; reflexivity.
  - unfold nospace in Hw; simpl in Hw; apply andb_true_iff in Hw as [Hc Hw].
    apply negb_true_iff in Hc; rewrite Hc, IH by exact Hw.
    rewrite <- app_assoc; reflexivity.
Qed.

Lemma split_token_space (w : str) (c : char) (s : str) :
  token w -> isspace c = true -> split (w ++ c :: s) = w :: split s.
Proof.
  intros [Nw Sw] Hc; unfold split.
  rewrite split_from_nospace by exact Sw; simpl; rewrite Hc.
  destruct w; [congruence | reflexivity].
Qed.

Lemma split_token_end (w : str) : token w -> split w = [w].
Proof.
  intros [Nw Sw]; unfold split.
  rewrite <- (app_nil_r w) at 1.
  rewrite split_from_nospace by exact Sw; simpl.
  destruct w; [congruence | reflexivity].
Qed.

Lemma isspace_blank : isspace (chr1 " ") = true.
Proof. reflexivity. Qed.

(** Three tokens joined by single blanks split back into the three. *)
Lemma split_three (a b c : str) :
  token a -> token b -> token c ->
  split (a ++ lit " " ++ b ++ lit " " ++ c) = [a; b; c].
Proof.
  intros Ha Hb Hc.
  change (lit " ") with [chr1 " "]; simpl app.
  rewrite (split_token_space _ _ _ Ha isspace_blank).
  rewrite (split_token_space _ _ _ Hb isspace_blank).
  rewrite (split_token_end _ Hc); reflexivity.
Qed.

Lemma lstrip_token (w s : str) : token w -> lstrip (w ++ s) = w ++ s.
Proof.
  intros [Nw Sw]; destruct w as [|c w]; [congruence|].
  unfold nospace in Sw; simpl in Sw; apply andb_true_iff in Sw as [Hc _].
  apply negb_true_iff in Hc; simpl; rewrite Hc; reflexivity.
Qed.

Lemma token_rev (w : str) : token w -> token (rev w).
Proof.
  intros [Nw Sw]; split.
  - intros E; apply Nw; rewrite <- (rev_involutive w), E; reflexivity.
  - unfold nospace in *; rewrite forallb_forall in *.
    intros x Hx; apply Sw, in_rev; exact Hx.
Qed.

Lemma rstrip_token (s w : str) : token w -> rstrip (s ++ w) = s ++ w.
Proof.
  intros Hw; unfold rstrip.
  rewrite rev_app_distr, (lstrip_token _ _ (token_rev _ Hw)).
  rewrite <- rev_app_distr; apply rev_involutive.
Qed.

(** [strip] leaves an address of three tokens as it is. *)
Lemma strip_three (a b c : str) :
  token a -> token c ->
  strip (a ++ lit " " ++ b ++ lit " " ++ c) = a ++ lit " " ++ b ++ lit " " ++ c.
Proof.
  intros Ha Hc; unfold strip.
  rewrite (lstrip_token _ _ Ha).
  rewrite !app_assoc; apply rstrip_token; exact Hc.
Qed.

Lemma token_join (ws : list str) : ws <> [] -> Forall token ws -> token (join ws).
Proof.
  intros Hne Hall; destruct ws as [|w ws]; [congruence|].
  clear Hne; revert w Hall; induction ws as [|v ws IH]; intros w Hall.
  - simpl; rewrite app_nil_r; inversion Hall; assumption.
  - inversion Hall; subst.
    change (join (w :: v :: ws)) with (w ++ join (v :: ws)).
    apply token_app; [assumption | apply IH; assumption].
Qed.

(** ** The regex engine on the patterns of the source *)

Lemma firstn_length_diff (pre s' : str) :
  firstn (List.length (pre ++ s') - List.length s') (pre ++ s') = pre.
Proof.
  rewrite length_app, Nat.add_sub.
  rewrite firstn_app, Nat.sub_diag, firstn_all; simpl; apply app_nil_r.
Qed.

Lemma re_match_cls (p : char -> bool) (s : str) :
  re_match (Cls p) s =
  match s with
  | c :: s' =>
      if p c then Some {| group0 := [c]; group1 := None; rest := s' |} else None
  | [] => None
  end.
Proof.
  destruct s as [|c s']; [reflexivity|].
  unfold re_match; cbn [rmatch].
  destruct (p c); [|reflexivity].
  pose proof (firstn_length_diff [c] s') as E; cbn [app] in E.
  rewrite E; reflexivity.
Qed.

Lemma finditer_cls (p : char -> bool) (fuel : nat) :
  forall s, List.length s < fuel ->
  join (map group0 (finditer_from fuel (Cls p) s)) = filter p s.
Proof.
  induction fuel as [|fuel IHf]; intros s Hlen; [lia|].
  induction s as [|c s IHs]; [reflexivity|].
  simpl in Hlen.
  cbn [finditer_from re_search].
  rewrite re_match_cls.
  cbn [filter]; destruct (p c).
  - cbn [group0 rest map join List.concat].
    change (List.concat (map group0 (finditer_from fuel (Cls p) s)))
      with (join (map group0 (finditer_from fuel (Cls p) s))).
    rewrite IHf by lia; reflexivity.
  - rewrite <- IHs by lia; reflexivity.
Qed.

(** [clean_korean_text] keeps exactly the Hangul syllables, in order. *)
Lemma clean_korean_text_filter (text : str) :
  clean_korean_text text = filter is_hangul_syllable text.
Proof. apply finditer_cls; lia. Qed.

Lemma clean_korean_text_hangul (text : str) :
  forallb is_hangul_syllable (clean_korean_text text) = true.
Proof.
  rewrite clean_korean_text_filter; apply forallb_forall.
  intros c Hc; apply filter_In in Hc; tauto.
Qed.

(** ** The address parse *)

(** Four tokens before the lot number: the fourth is the neighbourhood. *)
Example extract_four_tokens :
  extract_address_and_building_from_pdf
    [lit "등기사항전부증명서";
     lit "[집합건물] 경기도 수원시 영통구 이의동 123-4 가나오피스텔 제5층 제501호"]
  = Ok (Some (lit "경기도 수원시영통구 이의동"), Some (lit "가나오피스텔")).
Proof. vm_compute; reflexivity. Qed.

(** Three tokens before the lot number: the boundary is 2 and the parse
    returns the absent pair. *)
Example extract_three_tokens :
  extract_address_and_building_from_pdf
    [lit "[집합건물] 서울특별시 강남구 역삼동 123-4 가나오피스텔"]
  = Ok (None, None).
Proof. vm_compute; reflexivity. Qed.

Lemma scan_words_bound (words : list str) :
  forall i d, (0 <= i)%Z -> (-1 <= d < i)%Z ->
  (-1 <= scan_words i words d < i + Z.of_nat (List.length words))%Z.
Proof.
  induction words as [|w words IH]; intros i d Hi Hd; cbn [scan_words List.length].
  - lia.
  - destruct (is_some (re_match lot_re w)); [lia|].
    destruct (str_in (lit "동") w).
    + specialize (IH (i + 1)%Z i); lia.
    + specialize (IH (i + 1)%Z d); lia.
Qed.

Lemma Forall_firstn_skipn {A : Type} (P : A -> Prop) (n m : nat) (l : list A) :
  Forall P l -> Forall P (firstn n (skipn m l)).
Proof.
  intros H.
  rewrite <- (firstn_skipn m l) in H; apply Forall_app in H as [_ H].
  rewrite <- (firstn_skipn n (skipn m l)) in H; apply Forall_app in H as [H _].
  exact H.
Qed.

(** What [parse_marker_line] returns, by the boundary found. *)
Lemma parse_marker_line_cases (line : str) :
  let boundary := scan_words 0 (split line) (-1) in
  ((boundary < 3)%Z /\ parse_marker_line line = Ok (None, None))
  \/ ((3 <= boundary)%Z /\
      exists region citygu dong building_name,
        token region /\ token citygu /\ token dong /\
        forallb is_hangul_syllable building_name = true /\
        parse_marker_line line =
          Ok (Some (region ++ lit " " ++ citygu ++ lit " " ++ dong),
              Some building_name)).
Proof.
  intros boundary; unfold parse_marker_line; fold boundary.
  pose proof (split_tokens line) as Htok.
  pose proof (scan_words_bound (split line) 0 (-1) ltac:(lia) ltac:(lia)) as Hb.
  fold boundary in Hb.
  destruct (boundary <? 3)%Z eqn:Hlt.
  - left; split; [apply Z.ltb_lt; exact Hlt | reflexivity].
  - right; apply Z.ltb_ge in Hlt; split; [exact Hlt|].
    destruct (split line) as [|w0 [|w1 [|w2 [|w3 more]]]] eqn:Hw;
      cbn [List.length] in Hb; try lia.
    inversion Htok as [|? ? T0 Htok1]; subst.
    inversion Htok1 as [|? ? T1 Htok2]; subst.
    inversion Htok2 as [|? ? T2 Htok3]; subst.
    inversion Htok3 as [|? ? T3 Htok4]; subst.
    cbn [getitem nth_error bind].
    set (dong := join (slice (w0 :: w1 :: w2 :: w3 :: more) 3 (Some (boundary + 1)%Z))).
    assert (Hdong : token dong).
    { subst dong; unfold slice, clamp_index; cbn [List.length].
      replace (3 <? 0)%Z with false by reflexivity.
      destruct (boundary + 1 <? 0)%Z eqn:E; [apply Z.ltb_lt in E; lia|].
      rewrite !Z.min_l by lia.
      replace (Z.to_nat (boundary + 1) - Z.to_nat 3) with (S (Z.to_nat boundary - 3)) by lia.
      replace (Z.to_nat 3) with 3 by reflexivity.
      apply token_join; [cbn; discriminate|].
      apply Forall_firstn_skipn; exact Htok. }
    exists w0, (w1 ++ w2), dong, (clean_korean_text
      (join (filter (fun w => negb (is_some (re_search suffix_re w)))
         (slice (w0 :: w1 :: w2 :: w3 :: more) (boundary + 2) None)))).
    repeat split; try (apply T0 || apply Hdong).
    + destruct T1 as [N1 _]; destruct w1; [congruence | discriminate].
    + apply nospace_app; [apply T1 | apply T2].
    + apply clean_korean_text_hangul.
    + rewrite strip_three by assumption; reflexivity.
Qed.

(** ** Soundness of the matcher *)

Lemma rep_sound (R : Type) (p : char -> bool) (k : str -> option R) (x : R) :
  forall s lo hi, rep p lo hi s k = Some x ->
  exists pre s', s = pre ++ s' /\ k s' = Some x /\
    forallb p pre = true /\ lo <= List.length pre /\
    match hi with Some h => List.length pre <= h | None => True end.
Proof.
  assert (Hstop : forall s lo hi,
    match lo with O => k s | S _ => None end = Some x ->
    exists pre s', s = pre ++ s' /\ k s' = Some x /\
      forallb p pre = true /\ lo <= List.length pre /\
      match hi with Some h => List.length pre <= h | None => True end).
  { intros s [|lo] hi H; [|discriminate].
    exists [], s; repeat split; auto; destruct hi; simpl; auto with arith. }
  induction s as [|c s IH]; intros lo hi H; cbn [rep] in H.
  - apply Hstop; exact H.
  - destruct (p c && room hi) eqn:Hc; [|apply Hstop; exact H].
    apply andb_true_iff in Hc as [Hp Hroom].
    destruct (rep p (pred lo) (option_map pred hi) s k) as [y|] eqn:Hrec;
      [|apply Hstop; exact H].
    injection H as ->.
    destruct (IH _ _ Hrec) as (pre & s' & -> & Hk & Hall & Hlo & Hhi).
    exists (c :: pre), s'; cbn [app forallb List.length]; rewrite Hp, Hall.
    repeat split; auto; [lia|].
    destruct hi as [[|h]|]; simpl in *; try discriminate; auto; lia.
Qed.

Lemma rmatch_sound (R : Type) (r : regex) :
  forall s g (k : str -> option str -> option R) x,
  rmatch r s g k = Some x ->
  exists pre s' g', s = pre ++ s' /\ k s' g' = Some x /\ lang r pre g g'.
Proof.
  induction r as [c|p|p lo hi|r1 IH1 r2 IH2|r1 IH1 r2 IH2|r1 IH1|];
    intros s g k x H; cbn [rmatch] in H.
  - destruct s as [|y s]; [discriminate|].
    destruct (char_eqb y c) eqn:E; [|discriminate].
    apply char_eqb_eq in E as ->.
    exists [c], s, g; simpl; auto.
  - destruct s as [|y s]; [discriminate|].
    destruct (p y) eqn:E; [|discriminate].
    exists [y], s, g; simpl; repeat split; eauto.
  - apply rep_sound in H as (pre & s' & -> & Hk & Hall & Hlo & Hhi).
    exists pre, s', g; simpl; repeat split; auto.
  - apply IH1 in H as (p1 & s1 & gm & -> & H & L1).
    apply IH2 in H as (p2 & s2 & g' & -> & H & L2).
    exists (p1 ++ p2), s2, g'; rewrite app_assoc; repeat split; auto.
    simpl; exists p1, p2, gm; auto.
  - destruct (rmatch r1 s g k) as [y|] eqn:E.
    + injection H as ->.
      apply IH1 in E as (pre & s' & g' & -> & Hk & L).
      exists pre, s', g'; simpl; auto.
    + apply IH2 in H as (pre & s' & g' & -> & Hk & L).
      exists pre, s', g'; simpl; auto.
  - apply IH1 in H as (pre & s' & g1 & -> & Hk & L).
    rewrite firstn_length_diff in Hk.
    exists pre, s', (Some pre); simpl; repeat split; eauto.
  - exists [], s, g; simpl; auto.
Qed.

Lemma re_match_sound (r : regex) (s : str) (m : match_obj) :
  re_match r s = Some m ->
  s = group0 m ++ rest m /\ lang r (group0 m) None (group1 m).
Proof.
  unfold re_match; intros H.
  apply rmatch_sound in H as (pre & s' & g' & -> & Hk & L).
  rewrite firstn_length_diff in Hk; injection Hk as <-; simpl; auto.
Qed.

Lemma re_search_sound (r : regex) (s : str) (m : match_obj) :
  re_search r s = Some m ->
  (exists skipped, s = skipped ++ group0 m ++ rest m) /\
  lang r (group0 m) None (group1 m).
Proof.
  induction s as [|c s IH]; cbn [re_search]; intros H.
  - destruct (re_match r []) eqn:E; [|discriminate].
    injection H as ->; apply re_match_sound in E as [E L].
    split; [exists []; exact E | exact L].
  - destruct (re_match r (c :: s)) eqn:E.
    + injection H as ->; apply re_match_sound in E as [E L].
      split; [exists []; exact E | exact L].
    + destruct (IH H) as [[skipped ->] L].
      split; [exists (c :: skipped); reflexivity | exact L].
Qed.

Lemma finditer_sound (r : regex) (fuel : nat) :
  forall s, Forall (fun m => lang r (group0 m) None (group1 m))
              (finditer_from fuel r s).
Proof.
  induction fuel as [|fuel IH]; intros s; cbn [finditer_from]; [constructor|].
  destruct (re_search r s) as [m|] eqn:E; [|constructor].
  constructor; [apply (re_search_sound _ _ _ E)|].
  destruct (group0 m); [destruct (rest m); [constructor|]|]; apply IH.
Qed.

Lemma lang_keeps_group (r : regex) :
  forall pre g g', lang r pre g g' ->
  (g <> None \/ sets_group r = true) -> g' <> None.
Proof.
  induction r as [c|p|p lo hi|r1 IH1 r2 IH2|r1 IH1 r2 IH2|r1 IH1|];
    intros pre g g' L H; cbn [lang sets_group] in *.
  - destruct L as [_ ->]; destruct H; [assumption | discriminate].
  - destruct L as (c & _ & _ & ->); destruct H; [assumption | discriminate].
  - destruct L as (_ & _ & _ & ->); destruct H; [assumption | discriminate].
  - destruct L as (p1 & p2 & gm & _ & L1 & L2).
    destruct H as [H|H].
    + apply (IH2 _ _ _ L2); left; apply (IH1 _ _ _ L1); left; exact H.
    + apply orb_true_iff in H as [H|H].
      * apply (IH2 _ _ _ L2); left; apply (IH1 _ _ _ L1); right; exact H.
      * apply (IH2 _ _ _ L2); right; exact H.
  - destruct H as [H|H].
    + destruct L as [L|L]; [apply (IH1 _ _ _ L) | apply (IH2 _ _ _ L)]; left; exact H.
    + apply andb_true_iff in H as [H1 H2].
      destruct L as [L|L]; [apply (IH1 _ _ _ L) | apply (IH2 _ _ _ L)]; right; assumption.
  - destruct L as [_ ->]; discriminate.
  - destruct L as [_ ->]; destruct H; [assumption | discriminate].
Qed.

(** What the parse returns on every text. *)
Lemma extract_from_text_cases (text : str) :
  extract_address_and_building_from_text text = Ok (None, None)
  \/ exists region citygu dong building_name,
       token region /\ token citygu /\ token dong /\
       forallb is_hangul_syllable building_name = true /\
       extract_address_and_building_from_text text =
         Ok (Some (region ++ lit " " ++ citygu ++ lit " " ++ dong),
             Some building_name).
Proof.
  unfold extract_address_and_building_from_text.
  destruct (re_search marker_re text) as [m|] eqn:E; [|left; reflexivity].
  apply re_search_sound in E as [_ L].
  destruct (group1 m) as [g|] eqn:G.
  - destruct (parse_marker_line_cases (strip g)) as [[_ H]|[_ H]]; [left | right]; exact H.
  - exfalso; eapply lang_keeps_group; [exact L | right; reflexivity | reflexivity].
Qed.

Lemma rep_zero_total (R : Type) (p : char -> bool) (k : str -> option R) :
  (forall s', k s' <> None) -> forall s hi, rep p 0 hi s k <> None.
Proof.
  intros Hk; induction s as [|c s IH]; intros hi; cbn [rep]; [apply Hk|].
  destruct (p c && room hi); [|apply Hk].
  destruct (rep p (pred 0) (option_map pred hi) s k) eqn:E; [discriminate | apply Hk].
Qed.

(** [re.match] anchors at the start only: a word matches the lot-number
    pattern exactly when its first character is a decimal digit. *)
Lemma lot_re_match (w : str) :
  is_some (re_match lot_re w) =
  match w with c :: _ => isdecimal c | [] => false end.
Proof.
  unfold re_match, lot_re, seq_of, Opt, Star; cbn [fold_right rmatch].
  destruct w as [|c w]; [reflexivity|].
  cbn [rep room andb pred option_map].
  rewrite andb_true_r; destruct (isdecimal c); [|reflexivity].
  match goal with
  | |- is_some (match ?e with Some x => Some x | None => None end) = true =>
      destruct e eqn:E; [reflexivity | exfalso; revert E]
  end.
  apply rep_zero_total; intros s1.
  apply rep_zero_total; intros s2.
  apply rep_zero_total; intros s3; discriminate.
Qed.

Lemma scan_words_no_lot (words : list str) :
  forall i d, forallb no_lot words = true ->
  (scan_words i words d = d /\ forallb no_dong words = true)
  \/ exists pre w post,
       words = pre ++ w :: post /\
       scan_words i words d = (i + Z.of_nat (List.length pre))%Z /\
       str_in (lit "동") w = true /\ forallb no_dong post = true.
Proof.
  induction words as [|w words IH]; intros i d H; [left; auto|].
  cbn [forallb] in H; apply andb_true_iff in H as [Hw H].
  unfold no_lot in Hw; apply negb_true_iff in Hw.
  cbn [scan_words]; rewrite Hw.
  destruct (str_in (lit "동") w) eqn:Hd.
  - destruct (IH (i + 1)%Z i H) as [[E Hn]|(pre & x & post & -> & E & Hx & Hn)].
    + right; exists [], w, words; cbn [app List.length]; rewrite E.
      repeat split; auto; lia.
    + right; exists (w :: pre), x, post; cbn [app List.length]; rewrite E.
      repeat split; auto; lia.
  - destruct (IH (i + 1)%Z d H) as [[E Hn]|(pre & x & post & -> & E & Hx & Hn)].
    + left; split; [exact E|].
      cbn [forallb]; unfold no_dong at 1; rewrite Hd, Hn; reflexivity.
    + right; exists (w :: pre), x, post; cbn [app List.length]; rewrite E.
      repeat split; auto; lia.
Qed.

Lemma scan_words_lot (pre : list str) :
  forall i d w post, forallb no_lot pre = true ->
  is_some (re_match lot_re w) = true ->
  scan_words i (pre ++ w :: post) d = (i + Z.of_nat (List.length pre) - 1)%Z.
Proof.
  induction pre as [|x pre IH]; intros i d w post Hpre Hw; cbn [app scan_words].
  - rewrite Hw; cbn [List.length]; lia.
  - cbn [forallb] in Hpre; apply andb_true_iff in Hpre as [Hx Hpre].
    unfold no_lot in Hx; apply negb_true_iff in Hx; rewrite Hx.
    rewrite IH by assumption; cbn [List.length]; lia.
Qed.

(** * The claims *)

(** C1 (as amended): on every document the parse returns either the absent
    pair, or an address of exactly three non-empty whitespace-separated
    components together with a building name made of Hangul syllables only;
    that building name may be the empty string. *)
Theorem C1_pair_absent_or_address_with_hangul_name (pages : list str) :
  extract_address_and_building_from_pdf pages = Ok (None, None)
  \/ exists address building_name region citygu dong,
       extract_address_and_building_from_pdf pages =
         Ok (Some address, Some building_name)
       /\ split address = [region; citygu; dong]
       /\ region <> [] /\ citygu <> [] /\ dong <> []
       /\ forallb is_hangul_syllable building_name = true.
Proof.
  unfold extract_address_and_building_from_pdf.
  destruct (extract_from_text_cases (recognized_text pages))
    as [H|(region & citygu & dong & b & Tr & Tc & Td & Hb & H)]; [left; exact H|].
  right; exists (region ++ lit " " ++ citygu ++ lit " " ++ dong), b, region, citygu, dong.
  split; [exact H|].
  split; [apply split_three; assumption|].
  split; [apply Tr|]. split; [apply Tc|]. split; [apply Td | exact Hb].
Qed.

(** C1 (as stated) fails: a marker line that names no complex yields a present
    address paired with an empty building name. *)
Lemma C1_present_address_with_empty_building :
  let pages := [lit "[집합건물] 경기도 수원시 영통구 이의동 123-4 제5층 제501호"] in
  extract_address_and_building_from_pdf pages =
    Ok (Some (lit "경기도 수원시영통구 이의동"), Some [])
  /\ ~ (extract_address_and_building_from_pdf pages = Ok (None, None)
        \/ exists address building_name,
             extract_address_and_building_from_pdf pages =
               Ok (Some address, Some building_name)
             /\ address <> [] /\ building_name <> []).
Proof.
  assert (E : extract_address_and_building_from_pdf
                [lit "[집합건물] 경기도 수원시 영통구 이의동 123-4 제5층 제501호"] =
              Ok (Some (lit "경기도 수원시영통구 이의동"), Some []))
    by (vm_compute; reflexivity).
  cbv zeta; split; [exact E|].
  rewrite E; intros [H|(a & b & H & _ & Hb)]; [discriminate|].
  injection H as _ <-; apply Hb; reflexivity.
Qed.

(** C5, the reading the code does not follow: on the line
    "경기도 수원시 영통구 이의동 가나 오피스텔 101동" no token is a lot number
    and the last token containing "동" has index 6, yet the scan stops at
    "101동", which only begins with digits, and resolves the boundary to 5;
    the address then ends at "오피스텔". *)
Lemma C5_digit_prefix_stops_the_scan :
  let line := lit "경기도 수원시 영통구 이의동 가나 오피스텔 101동" in
  let words := [lit "경기도"; lit "수원시"; lit "영통구"; lit "이의동";
                lit "가나"; lit "오피스텔"; lit "101동"] in
  split line = words
  /\ forallb (fun w => negb (lot_number_token w)) words = true
  /\ nth_error words 6 = Some (lit "101동")
  /\ List.length words = 7
  /\ str_in (lit "동") (lit "101동") = true
  /\ scan_words 0 words (-1) = 5%Z
  /\ scan_words 0 words (-1) <> 6%Z
  /\ parse_marker_line line
     = Ok (Some (lit "경기도 수원시영통구 이의동가나오피스텔"), Some [])
  /\ extract_address_and_building_from_pdf [lit "[집합건물] " ++ line]
     = Ok (Some (lit "경기도 수원시영통구 이의동가나오피스텔"), Some []).
Proof.
  intros line words.
  assert (E : scan_words 0 words (-1) = 5%Z) by (vm_compute; reflexivity).
  split; [vm_compute; reflexivity|].
  split; [vm_compute; reflexivity|].
  split; [reflexivity|].
  split; [reflexivity|].
  split; [vm_compute; reflexivity|].
  split; [exact E|].
  split; [rewrite E; discriminate|].
  split; vm_compute; reflexivity.
Qed.

(** C5, amended: the scan stops at the first token that begins with a
    decimal digit, which is all that [re.match] asks of a token, and resolves
    the boundary to the index before it; every lot number of one to four
    digits with an optional "-" and digits is such a token.  When no token
    begins with a digit the boundary is the index of the last token
    containing "동", or -1 without one.  The parse returns the absent pair
    whenever the boundary is below 3. *)
Theorem C5_token_boundary :
  (forall w,
     is_some (re_match lot_re w) = true
     <-> exists c rest, w = c :: rest /\ isdecimal c = true)
  /\ (forall w, lot_number_token w = true -> is_some (re_match lot_re w) = true)
  /\ (forall words,
     forallb no_lot words = true ->
     (scan_words 0 words (-1) = (-1)%Z /\ forallb no_dong words = true)
     \/ exists pre w post,
          words = pre ++ w :: post /\
          scan_words 0 words (-1) = Z.of_nat (List.length pre) /\
          str_in (lit "동") w = true /\ forallb no_dong post = true)
  /\ (forall pre w post,
        forallb no_lot pre = true ->
        is_some (re_match lot_re w) = true ->
        scan_words 0 (pre ++ w :: post) (-1) = (Z.of_nat (List.length pre) - 1)%Z)
  /\ (forall line,
        (scan_words 0 (split line) (-1) < 3)%Z ->
        parse_marker_line line = Ok (None, None))
  /\ (forall text m g,
        re_search marker_re text = Some m -> group1 m = Some g ->
        (scan_words 0 (split (strip g)) (-1) < 3)%Z ->
        extract_address_and_building_from_text text = Ok (None, None)).
Proof.
  assert (Hline : forall line,
            (scan_words 0 (split line) (-1) < 3)%Z ->
            parse_marker_line line = Ok (None, None)).
  { intros line H; unfold parse_marker_line.
    apply Z.ltb_lt in H; rewrite H; reflexivity. }
  assert (Hdigit : forall w,
            is_some (re_match lot_re w) = true
            <-> exists c rest, w = c :: rest /\ isdecimal c = true).
  { intros w; rewrite (lot_re_match w); destruct w as [|c w].
    - split; [discriminate | intros (? & ? & H & _); discriminate H].
    - split; [intros H; exists c, w; auto|].
      intros (c' & w' & H & Hc); injection H as <- <-; exact Hc. }
  split; [exact Hdigit|].
  split; [|split; [|split; [|split]]].
  - intros w H; apply Hdigit.
    unfold lot_number_token, re_fullmatch in H.
    destruct (rmatch lot_number_re w None _) as [x|] eqn:E; [|discriminate H].
    apply rmatch_sound in E as (pre & s' & g' & Hw & _ & Hl).
    cbn [lot_number_re lang] in Hl.
    destruct Hl as (p1 & p2 & gm & Hpre & (Hp1 & Hlen & _) & _).
    destruct p1 as [|c p1]; [cbn in Hlen; lia|].
    cbn [forallb] in Hp1; apply andb_prop in Hp1 as [Hc _].
    exists c, (p1 ++ p2 ++ s'); split; [|exact Hc].
    rewrite Hw, Hpre; cbn [app]; rewrite <- app_assoc; reflexivity.
  - intros words H; apply (scan_words_no_lot words 0 (-1)) in H.
    exact H.
  - intros pre w post Hpre Hw.
    rewrite (scan_words_lot pre 0 (-1) w post Hpre Hw); lia.
  - exact Hline.
  - intros text m g Hm Hg H.
    unfold extract_address_and_building_from_text; rewrite Hm, Hg.
    apply Hline; exact H.
Qed.

(** C10: an address returned by a successful parse splits into exactly three
    non-empty components, so the component-count check of [get_lawd_cd] is
    passed and the lookup is made on those three components. *)
Theorem C10_parsed_address_has_three_components
    (pages : list str) (address : str) (building : option str) :
  extract_address_and_building_from_pdf pages = Ok (Some address, building) ->
  exists region citygu dong,
    region <> [] /\ citygu <> [] /\ dong <> [] /\
    split address = [region; citygu; dong] /\
    (List.length (split address) <? 3) = false /\
    forall table,
      get_lawd_cd address table =
      match filter (row_matches region citygu dong) table with
      | r :: _ =>
          match lawd_code r with
          | Some code => Ok (Some (firstn 5 code))
          | None => Raise TypeError
          end
      | [] => Ok None
      end.
Proof.
  unfold extract_address_and_building_from_pdf; intros H.
  destruct (extract_from_text_cases (recognized_text pages))
    as [E|(region & citygu & dong & b & Tr & Tc & Td & _ & E)];
    rewrite E in H; [discriminate|].
  assert (Ha : address = region ++ lit " " ++ citygu ++ lit " " ++ dong)
    by congruence.
  subst address; clear H.
  pose proof (split_three _ _ _ Tr Tc Td) as Hs.
  exists region, citygu, dong.
  split; [apply Tr|]. split; [apply Tc|]. split; [apply Td|].
  split; [exact Hs|]. split.
  - rewrite Hs; reflexivity.
  - intros table; unfold get_lawd_cd; rewrite Hs; reflexivity.
Qed.

Lemma C5_token_boundary_witness :
  (is_some (re_match lot_re (lit "101동")) = true
   <-> exists c rest, lit "101동" = c :: rest /\ isdecimal c = true)
  /\ (lot_number_token (lit "123-4") = true /\
      is_some (re_match lot_re (lit "123-4")) = true)
  /\ (let words := [lit "경기도"; lit "수원시"; lit "영통구"; lit "이의동"; lit "가나"] in
   forallb no_lot words = true /\
   ((scan_words 0 words (-1) = (-1)%Z /\ forallb no_dong words = true)
    \/ exists pre w post,
         words = pre ++ w :: post /\
         scan_words 0 words (-1) = Z.of_nat (List.length pre) /\
         str_in (lit "동") w = true /\ forallb no_dong post = true))
  /\ (let pre := [lit "경기도"; lit "수원시"; lit "영통구"; lit "이의동";
                  lit "가나"; lit "오피스텔"] in
      forallb no_lot pre = true /\
      is_some (re_match lot_re (lit "101동")) = true /\
      scan_words 0 (pre ++ lit "101동" :: []) (-1) =
        (Z.of_nat (List.length pre) - 1)%Z)
  /\ ((scan_words 0 (split (lit "서울특별시 강남구 역삼동 123-4")) (-1) < 3)%Z /\
      parse_marker_line (lit "서울특별시 강남구 역삼동 123-4") = Ok (None, None))
  /\ (let text := lit "[집합건물] 서울특별시 강남구 역삼동 123-4 " in
      let g := lit "서울특별시 강남구 역삼동 123-4 " in
      let m := {| group0 := text; group1 := Some g; rest := [] |} in
      re_search marker_re text = Some m /\ group1 m = Some g /\
      (scan_words 0 (split (strip g)) (-1) < 3)%Z /\
      extract_address_and_building_from_text text = Ok (None, None)).
Proof.
  destruct C5_token_boundary as (P & Q & A & B & C & D).
  split; [exact (P (lit "101동"))|].
  split; [|split; [|split; [|split]]].
  - assert (H : lot_number_token (lit "123-4") = true) by (vm_compute; reflexivity).
    split; [exact H | exact (Q _ H)].
  - split; [vm_compute; reflexivity | apply A; vm_compute; reflexivity].
  - split; [vm_compute; reflexivity|].
    split; [vm_compute; reflexivity | apply B; vm_compute; reflexivity].
  - split; [vm_compute; reflexivity | apply C; vm_compute; reflexivity].
  - intros text g m.
    assert (Hm : re_search marker_re text = Some m) by (vm_compute; reflexivity).
    assert (Hb : (scan_words 0 (split (strip g)) (-1) < 3)%Z)
      by (vm_compute; reflexivity).
    split; [exact Hm|]; split; [reflexivity|]; split; [exact Hb|].
    exact (D text m g Hm eq_refl Hb).
Defined.

Lemma C10_parsed_address_witness :
  let pages := [lit "[집합건물] 경기도 수원시 영통구 이의동 123-4 가나오피스텔 제5층 제501호"] in
  let address := lit "경기도 수원시영통구 이의동" in
  extract_address_and_building_from_pdf pages =
    Ok (Some address, Some (lit "가나오피스텔"))
  /\ exists region citygu dong,
       region <> [] /\ citygu <> [] /\ dong <> [] /\
       split address = [region; citygu; dong] /\
       (List.length (split address) <? 3) = false /\
       forall table,
         get_lawd_cd address table =
         match filter (row_matches region citygu dong) table with
         | r :: _ =>
             match lawd_code r with
             | Some code => Ok (Some (firstn 5 code))
             | None => Raise TypeError
             end
         | [] => Ok None
         end.
Proof.
  cbv zeta.
  assert (E : extract_address_and_building_from_pdf
                [lit "[집합건물] 경기도 수원시 영통구 이의동 123-4 가나오피스텔 제5층 제501호"] =
              Ok (Some (lit "경기도 수원시영통구 이의동"), Some (lit "가나오피스텔")))
    by (vm_compute; reflexivity).
  split; [exact E|].
  exact (C10_parsed_address_has_three_components _ _ _ E).
Defined.

(** ** Code lookup *)

(** C6: fewer than three components give the absent result; so does a table
    without a row whose three names equal the first three components; and
    otherwise the result is the first five characters of the code of the
    first such row.  A code is returned only for a row whose names are equal
    to the components, character for character. *)
Theorem C6_get_lawd_cd (address : str) (table : list code_row) :
  (List.length (split address) < 3 -> get_lawd_cd address table = Ok None)
  /\ (forall sido sigungu eupmyeondong more,
        split address = sido :: sigungu :: eupmyeondong :: more ->
        (forall r, In r table ->
           ~ (sido_name r = Some sido /\ sigungu_name r = Some sigungu /\
              eupmyeondong_name r = Some eupmyeondong)) ->
        get_lawd_cd address table = Ok None)
  /\ (forall sido sigungu eupmyeondong more before r after code,
        split address = sido :: sigungu :: eupmyeondong :: more ->
        table = before ++ r :: after ->
        (forall r', In r' before ->
           ~ (sido_name r' = Some sido /\ sigungu_name r' = Some sigungu /\
              eupmyeondong_name r' = Some eupmyeondong)) ->
        sido_name r = Some sido -> sigungu_name r = Some sigungu ->
        eupmyeondong_name r = Some eupmyeondong ->
        lawd_code r = Some code ->
        get_lawd_cd address table = Ok (Some (firstn 5 code)))
  /\ (forall result,
        get_lawd_cd address table = Ok (Some result) ->
        exists sido sigungu eupmyeondong more r code,
          split address = sido :: sigungu :: eupmyeondong :: more /\
          In r table /\
          sido_name r = Some sido /\ sigungu_name r = Some sigungu /\
          eupmyeondong_name r = Some eupmyeondong /\
          lawd_code r = Some code /\ result = firstn 5 code).
Proof.
  assert (Hcell : forall cell s, cell_eq cell s = true <-> cell = Some s).
  { intros [x|] s; unfold cell_eq.
    - rewrite str_eqb_eq; split; [intros ->; reflexivity | intros E; inversion E; reflexivity].
    - split; discriminate. }
  assert (Hrow : forall a b c r,
            row_matches a b c r = true <->
            sido_name r = Some a /\ sigungu_name r = Some b /\
            eupmyeondong_name r = Some c).
  { intros a b c r; unfold row_matches.
    rewrite !andb_true_iff, !Hcell; tauto. }
  assert (Hnone : forall a b c rows,
            (forall r, In r rows ->
               ~ (sido_name r = Some a /\ sigungu_name r = Some b /\
                  eupmyeondong_name r = Some c)) ->
            filter (row_matches a b c) rows = []).
  { intros a b c rows H; induction rows as [|r rows IH]; [reflexivity|].
    cbn [filter]; destruct (row_matches a b c r) eqn:E.
    - apply Hrow in E; exfalso; apply (H r); [left; reflexivity | exact E].
    - apply IH; intros r' Hr'; apply H; right; exact Hr'. }
  split; [|split; [|split]].
  - intros H; unfold get_lawd_cd.
    apply Nat.ltb_lt in H; rewrite H; reflexivity.
  - intros a b c more Hs H; unfold get_lawd_cd; rewrite Hs.
    cbn [List.length Nat.ltb Nat.leb getitem nth_error bind].
    rewrite (Hnone a b c table H); reflexivity.
  - intros a b c more before r after code Hs -> Hbefore H1 H2 H3 Hcode.
    unfold get_lawd_cd; rewrite Hs.
    cbn [List.length Nat.ltb Nat.leb getitem nth_error bind].
    rewrite filter_app, (Hnone a b c before Hbefore); cbn [app filter].
    replace (row_matches a b c r) with true
      by (symmetry; apply Hrow; auto).
    rewrite Hcode; reflexivity.
  - intros result H; unfold get_lawd_cd in H.
    destruct (split address) as [|a [|b [|c more]]] eqn:Hs;
      cbn [List.length Nat.ltb Nat.leb getitem nth_error bind] in H;
      try discriminate.
    destruct (filter (row_matches a b c) table) as [|r rows] eqn:Hf;
      [discriminate|].
    assert (Hin : In r (filter (row_matches a b c) table))
      by (rewrite Hf; left; reflexivity).
    apply filter_In in Hin as [Hin Hm]; apply Hrow in Hm as (H1 & H2 & H3).
    destruct (lawd_code r) as [code|] eqn:Hcode; [|discriminate].
    exists a, b, c, more, r, code.
    split; [reflexivity|].
    repeat (split; [assumption|]).
    congruence.
Qed.

Lemma C6_get_lawd_cd_witness :
  let row1 := {| sido_name := Some (lit "경기도"); sigungu_name := None;
                 eupmyeondong_name := None;
                 lawd_code := Some (lit "4100000000") |} in
  let row2 := {| sido_name := Some (lit "경기도");
                 sigungu_name := Some (lit "수원시영통구");
                 eupmyeondong_name := Some (lit "이의동");
                 lawd_code := Some (lit "4111710300") |} in
  let address := lit "경기도 수원시영통구 이의동" in
  get_lawd_cd (lit "경기도 수원시") [row1; row2] = Ok None
  /\ get_lawd_cd address [row1] = Ok None
  /\ get_lawd_cd address [row1; row2] = Ok (Some (lit "41117"))
  /\ exists sido sigungu eupmyeondong more r code,
       split address = sido :: sigungu :: eupmyeondong :: more /\
       In r [row1; row2] /\
       sido_name r = Some sido /\ sigungu_name r = Some sigungu /\
       eupmyeondong_name r = Some eupmyeondong /\
       lawd_code r = Some code /\ lit "41117" = firstn 5 code.
Proof.
  intros row1 row2 address.
  assert (Hrow1 : forall r, In r [row1] ->
            ~ (sido_name r = Some (lit "경기도") /\
               sigungu_name r = Some (lit "수원시영통구") /\
               eupmyeondong_name r = Some (lit "이의동"))).
  { intros r [<-|[]] (_ & H & _); discriminate H. }
  split; [|split; [|split]].
  - apply (proj1 (C6_get_lawd_cd (lit "경기도 수원시") [row1; row2])).
    vm_compute; lia.
  - apply (proj1 (proj2 (C6_get_lawd_cd address [row1]))
             (lit "경기도") (lit "수원시영통구") (lit "이의동") []);
      [vm_compute; reflexivity | exact Hrow1].
  - apply (proj1 (proj2 (proj2 (C6_get_lawd_cd address [row1; row2])))
             (lit "경기도") (lit "수원시영통구") (lit "이의동") []
             [row1] row2 [] (lit "4111710300"));
      try reflexivity; exact Hrow1.
  - apply (proj2 (proj2 (proj2 (C6_get_lawd_cd address [row1; row2])))).
    vm_compute; reflexivity.
Defined.

(** ** Risk level *)

Lemma ge_score_true (score : Q) (bound : Z) :
  ge_score score bound = true <-> (inject_Z bound <= score)%Q.
Proof. apply Qle_bool_iff. Qed.

Lemma ge_score_false (score : Q) (bound : Z) :
  ge_score score bound = false <-> (score < inject_Z bound)%Q.
Proof.
  unfold ge_score; split; intros H.
  - apply Qnot_le_lt; intros L; apply Qle_bool_iff in L; congruence.
  - destruct (Qle_bool (inject_Z bound) score) eqn:E; [|reflexivity].
    apply Qle_bool_iff in E; exfalso; apply (Qlt_not_le _ _ H E).
Qed.

(** C7: the level is "매우 높음" exactly on [80,∞), "높음" exactly on
    [60,80), "보통" exactly on [40,60), "낮음" exactly on [20,40) and
    "매우 낮음" exactly below 20; every score gets one of the five. *)
Theorem C7_risk_level_bands (score : Q) :
  let level := fst (interpret_risk_score score) in
  (level = lit "매우 높음" <-> (80 <= score)%Q)
  /\ (level = lit "높음" <-> (60 <= score /\ score < 80)%Q)
  /\ (level = lit "보통" <-> (40 <= score /\ score < 60)%Q)
  /\ (level = lit "낮음" <-> (20 <= score /\ score < 40)%Q)
  /\ (level = lit "매우 낮음" <-> (score < 20)%Q)
  /\ (level = lit "매우 높음" \/ level = lit "높음" \/ level = lit "보통"
      \/ level = lit "낮음" \/ level = lit "매우 낮음").
Proof.
  unfold interpret_risk_score.
  destruct (ge_score score 80) eqn:E80;
    [|destruct (ge_score score 60) eqn:E60;
      [|destruct (ge_score score 40) eqn:E40;
        [|destruct (ge_score score 20) eqn:E20]]];
    rewrite ?ge_score_true, ?ge_score_false in *;
    unfold inject_Z in *; cbn [fst]; cbv zeta;
    repeat match goal with
           | |- _ /\ _ => split
           | |- _ <-> _ =>
               split;
               [ let H := fresh in
                 intros H; first [ reflexivity
                                 | vm_compute in H; discriminate H
                                 | lra ]
               | let H := fresh in
                 intros H; first [ reflexivity | exfalso; lra ] ]
           end;
    tauto.
Qed.

Lemma C7_risk_level_bands_witness :
  fst (interpret_risk_score (75 # 1)) = lit "높음"
  /\ (60 <= 75 # 1 /\ 75 # 1 < 80)%Q.
Proof.
  split; [reflexivity|].
  apply (proj1 (proj1 (proj2 (C7_risk_level_bands (75 # 1))))).
  reflexivity.
Defined.

(** ** Feature extraction *)

Lemma startswith_str_in (sub s : str) :
  startswith sub s = true -> str_in sub s = true.
Proof. intros H; destruct s; cbn [str_in]; rewrite H; reflexivity. Qed.

(** A text that contains a keyword contains the keyword without its first
    character. *)
Lemma str_in_tail (a : char) (sub s : str) :
  str_in (a :: sub) s = true -> str_in sub s = true.
Proof.
  induction s as [|c s IH]; cbn [str_in startswith]; [discriminate|].
  intros H; apply orb_true_iff in H as [H|H].
  - apply andb_true_iff in H as [_ H].
    rewrite (startswith_str_in _ _ H); apply orb_true_r.
  - rewrite (IH H); apply orb_true_r.
Qed.

Lemma isdecimal_not_comma (c : char) :
  isdecimal c = true -> char_eqb c (chr1 ",") = false.
Proof.
  intros H; destruct (char_eqb c (chr1 ",")) eqn:E; [|reflexivity].
  apply char_eqb_eq in E; subst c; vm_compute in H; discriminate H.
Qed.

Lemma replace1_app (old : char) (new a b : str) :
  replace1 old new (a ++ b) = replace1 old new a ++ replace1 old new b.
Proof. apply flat_map_app. Qed.

Lemma replace1_digits (d : str) :
  forallb isdecimal d = true -> replace1 (chr1 ",") [] d = d.
Proof.
  induction d as [|c d IH]; [reflexivity|].
  cbn [forallb]; intros H; apply andb_true_iff in H as [Hc Hd].
  unfold replace1 in *; cbn [flat_map].
  rewrite (isdecimal_not_comma _ Hc), IH by exact Hd; reflexivity.
Qed.

Lemma int_digits_ok (d : str) :
  forallb isdecimal d = true -> forall acc, exists v, int_digits d acc = Ok v.
Proof.
  induction d as [|c d IH]; cbn [forallb int_digits]; intros H acc; [eauto|].
  apply andb_true_iff in H as [Hc Hd].
  unfold isdecimal in Hc; destruct (decimal_value c); [apply IH; exact Hd | discriminate].
Qed.

Lemma decimal_in_range (zeros : list N) (c : char) (d : Z) :
  decimal_in zeros c = Some d -> (0 <= d < 10)%Z.
Proof.
  induction zeros as [|z zeros IH]; cbn [decimal_in]; [discriminate|].
  destruct ((z <=? c) && (c <? z + 10))%N eqn:E; [|exact IH].
  apply andb_true_iff in E as [E1 E2].
  apply N.leb_le in E1; apply N.ltb_lt in E2.
  intros H; injection H as <-; lia.
Qed.

(** The value of [n] digits is below [10^n]. *)
Lemma int_digits_bound (s : str) :
  forall acc v, (0 <= acc)%Z -> int_digits s acc = Ok v ->
  (0 <= v < (acc + 1) * 10 ^ Z.of_nat (List.length s))%Z.
Proof.
  induction s as [|c s IH]; intros acc v Hacc H; cbn [int_digits] in H.
  - injection H as <-; cbn [List.length Z.of_nat]; rewrite Z.pow_0_r; lia.
  - destruct (decimal_value c) as [d|] eqn:Hd; [|discriminate].
    apply decimal_in_range in Hd.
    apply IH in H; [|lia].
    cbn [List.length]; rewrite Nat2Z.inj_succ, Z.pow_succ_r by lia.
    assert (P : (0 < 10 ^ Z.of_nat (List.length s))%Z)
      by (apply Z.pow_pos_nonneg; lia).
    nia.
Qed.

Lemma int_digits_raises (s : str) :
  forall acc e, int_digits s acc = Raise e -> e = ValueError.
Proof.
  induction s as [|c s IH]; intros acc e H; cbn [int_digits] in H; [discriminate|].
  destruct (decimal_value c); [apply (IH _ _ H) | congruence].
Qed.

Lemma py_int_raises (s : str) (e : exn) : py_int s = Raise e -> e = ValueError.
Proof.
  unfold py_int; destruct s as [|c s]; [congruence|].
  destruct (int_max_str_digits <? _)%Z; [congruence | apply int_digits_raises].
Qed.

Lemma py_int_digits_ok (d : str) :
  d <> [] -> forallb isdecimal d = true ->
  (Z.of_nat (List.length d) <= int_max_str_digits)%Z ->
  exists v, py_int d = Ok v.
Proof.
  intros Hne H Hlen; destruct d as [|c d]; [congruence|]; unfold py_int.
  destruct (int_max_str_digits <? Z.of_nat (List.length (c :: d)))%Z eqn:E;
    [apply Z.ltb_lt in E; lia|].
  apply (int_digits_ok _ H).
Qed.

Lemma replace1_length (old : char) (s : str) :
  List.length (replace1 old [] s) <= List.length s.
Proof.
  unfold replace1; induction s as [|c s IH]; cbn [flat_map List.length]; [lia|].
  destruct (char_eqb c old); cbn [app List.length]; lia.
Qed.

(** An amount of [n] characters reads as a number below [10^n]. *)
Lemma amount_value_bound (amount : str) (v : Z) :
  py_int (replace1 (chr1 ",") [] amount) = Ok v ->
  (0 <= v < 10 ^ Z.of_nat (List.length amount))%Z.
Proof.
  unfold py_int; pose proof (replace1_length (chr1 ",") amount) as Hl.
  destruct (replace1 (chr1 ",") [] amount) as [|c s]; [discriminate|].
  destruct (int_max_str_digits <? _)%Z; [discriminate|]; intros H.
  apply int_digits_bound in H; [|lia].
  assert (10 ^ Z.of_nat (List.length (c :: s))
          <= 10 ^ Z.of_nat (List.length amount))%Z
    by (apply Z.pow_le_mono_r; lia).
  lia.
Qed.

(** Every match of the mortgage pattern captures an amount that, its comma
    removed, is a non-empty string of decimal digits. *)
Lemma mortgage_group_digits (pre : str) (g' : option str) :
  lang mortgage_re pre None g' ->
  exists g,
    g' = Some g
    /\ replace1 (chr1 ",") [] g <> []
    /\ forallb isdecimal (replace1 (chr1 ",") [] g) = true.
Proof.
  unfold mortgage_re, seq_of, Plus; cbn [fold_right lang].
  intros (p1 & p2 & gm & _ & _ & (g1 & HA) & ->).
  exists p2; split; [reflexivity|].
  destruct HA as [(d1 & q & g2 & -> & (H1 & L1 & _) & (c & q2 & g3 & -> & (-> & _)
                   & (d2 & e & g4 & -> & (H2 & L2 & _) & (-> & _))))|(H & L & _)].
  - assert (E : replace1 (chr1 ",") [] (d1 ++ [chr1 ","] ++ d2 ++ []) = d1 ++ d2).
    { rewrite app_nil_r, !replace1_app, (replace1_digits _ H1),
        (replace1_digits _ H2); reflexivity. }
    rewrite E; split.
    + destruct d1; [cbn in L1; lia | discriminate].
    + rewrite forallb_app, H1, H2; reflexivity.
  - rewrite (replace1_digits _ H); split; [|exact H].
    destruct p2; [cbn in L; lia | discriminate].
Qed.

Lemma mortgage_groups_digits (text : str) :
  Forall (fun amount =>
            replace1 (chr1 ",") [] amount <> []
            /\ forallb isdecimal (replace1 (chr1 ",") [] amount) = true)
    (re_findall_group mortgage_re text).
Proof.
  unfold re_findall_group, re_finditer; apply Forall_map.
  eapply Forall_impl; [|apply finditer_sound].
  intros m L; cbv beta in L.
  destruct (mortgage_group_digits _ _ L) as (g & -> & H); exact H.
Qed.

Lemma map_outcome_ok {A B : Type} (f : A -> outcome B) (l : list A) :
  Forall (fun a => exists b, f a = Ok b) l -> exists bs, map_outcome f l = Ok bs.
Proof.
  induction 1 as [|a l [b Hb] _ [bs Hbs]]; cbn [map_outcome]; [eauto|].
  rewrite Hb; cbn [bind]; rewrite Hbs; cbn [bind]; eauto.
Qed.

Lemma map_outcome_values {A B : Type} (f : A -> outcome B) (P : B -> Prop) :
  forall l bs,
  (forall a b, In a l -> f a = Ok b -> P b) ->
  map_outcome f l = Ok bs -> Forall P bs.
Proof.
  induction l as [|a l IH]; cbn [map_outcome]; intros bs Hf H.
  - injection H as <-; constructor.
  - destruct (f a) as [b|] eqn:Hb; cbn [bind] in H; [|discriminate].
    destruct (map_outcome f l) as [bs'|]; cbn [bind] in H; [|discriminate].
    injection H as <-; constructor.
    + apply (Hf a); [left; reflexivity | exact Hb].
    + apply IH; [|reflexivity].
      intros a' b' Hin; apply Hf; right; exact Hin.
Qed.

Lemma map_outcome_raises {A B : Type} (f : A -> outcome B) (e : exn) :
  forall l, map_outcome f l = Raise e -> exists a, In a l /\ f a = Raise e.
Proof.
  induction l as [|a l IH]; cbn [map_outcome]; [discriminate|].
  destruct (f a) as [b|e'] eqn:Hb; cbn [bind].
  - destruct (map_outcome f l) as [bs|e'] eqn:Hl; cbn [bind]; [discriminate|].
    intros H; injection H as ->.
    destruct (IH eq_refl) as (a' & Hin & Ha'); exists a'; split; [right|]; assumption.
  - intros H; injection H as ->; exists a; split; [left; reflexivity | exact Hb].
Qed.

Lemma max_of_lt (bound : Z) (values : list Z) :
  forall v, (v < bound)%Z -> Forall (fun x => (x < bound)%Z) values ->
  (max_of v values < bound)%Z.
Proof.
  unfold max_of; induction values as [|x values IH]; intros v Hv H;
    cbn [fold_left]; [exact Hv|].
  inversion H as [|? ? Hx Hrest]; subst; apply IH; [lia | exact Hrest].
Qed.

Lemma max_of_nonneg (values : list Z) :
  forall v, (0 <= v)%Z -> (0 <= max_of v values)%Z.
Proof.
  unfold max_of; induction values as [|x values IH]; intros v Hv;
    cbn [fold_left]; [exact Hv|].
  apply IH; lia.
Qed.

(** [normalize_mortgage] returns when every captured amount has at most
    316 characters: such amounts are below the limit of [int] and their
    quotient is in the range of the floats. *)
Lemma normalize_mortgage_returns (text : str) :
  Forall (fun amount => List.length amount <= 316)
    (re_findall_group mortgage_re text) ->
  exists q, normalize_mortgage text = Ok q.
Proof.
  intros Hlen; unfold normalize_mortgage.
  destruct (map_outcome_ok (fun m => py_int (replace1 (chr1 ",") [] m))
              (re_findall_group mortgage_re text)) as [vs Hvs].
  { pose proof (mortgage_groups_digits text) as Hd.
    rewrite Forall_forall in *; intros m Hm.
    destruct (Hd m Hm) as [Hne Hdig]; specialize (Hlen m Hm).
    apply py_int_digits_ok; [exact Hne | exact Hdig|].
    pose proof (replace1_length (chr1 ",") m); unfold int_max_str_digits; lia. }
  rewrite Hvs; cbn [bind].
  assert (Hb : Forall (fun v => 0 <= v < 10 ^ 316)%Z vs).
  { eapply map_outcome_values; [|exact Hvs].
    intros m v Hm Hv; cbv beta in Hv; apply amount_value_bound in Hv.
    rewrite Forall_forall in Hlen; specialize (Hlen m Hm).
    assert (10 ^ Z.of_nat (List.length m) <= 10 ^ 316)%Z
      by (apply Z.pow_le_mono_r; lia).
    lia. }
  destruct vs as [|v vs]; [eauto|].
  inversion Hb as [|? ? Hv Hvs']; subst.
  assert (Hmax : (0 <= max_of v vs < 10 ^ 316)%Z).
  { split; [apply max_of_nonneg; lia|].
    apply max_of_lt; [lia|].
    eapply Forall_impl; [|exact Hvs']; cbv beta; intros; lia. }
  replace (quotient_overflows (max_of v vs) 100000000) with false; [eauto|].
  symmetry; unfold quotient_overflows; apply Z.leb_gt.
  rewrite (Z.abs_eq (max_of v vs)) by lia.
  assert (10 ^ 316 <= float_limit * Z.abs 100000000)%Z
    by (vm_compute; discriminate).
  lia.
Qed.

Lemma normalize_mortgage_raises (text : str) (e : exn) :
  normalize_mortgage text = Raise e -> e = ValueError \/ e = OverflowError.
Proof.
  unfold normalize_mortgage.
  destruct (map_outcome _ _) as [vs|e'] eqn:Hv; cbn [bind].
  - destruct vs as [|v vs]; [discriminate|].
    destruct (quotient_overflows _ _); [|discriminate].
    intros H; injection H as <-; right; reflexivity.
  - intros H; injection H as ->.
    apply map_outcome_raises in Hv as (m & _ & Hm).
    left; apply (py_int_raises _ _ Hm).
Qed.

(** C9: in every record the function returns, the provisional-seizure
    feature never exceeds the seizure feature: when "가압류" is found, so is
    "압류".  The function returns a record whenever no captured lien amount
    has more than 316 characters, and otherwise it can only raise
    ValueError (the digit limit of [int]) or OverflowError (the quotient). *)
Theorem C9_seizure_covers_provisional_seizure (text : str) (ratio : Q) :
  (forall f,
     parse_ocr_text_to_features text ratio = Ok f ->
     (provisional_seizure f <= seizure f)%Z
     /\ (provisional_seizure f = 1%Z -> seizure f = 1%Z))
  /\ (Forall (fun amount => List.length amount <= 316)
        (re_findall_group mortgage_re (replace1 (chr1 " ") [] text)) ->
      exists f, parse_ocr_text_to_features text ratio = Ok f)
  /\ (forall e,
        parse_ocr_text_to_features text ratio = Raise e ->
        e = ValueError \/ e = OverflowError).
Proof.
  unfold parse_ocr_text_to_features; split; [|split].
  - intros f H.
    destruct (normalize_mortgage (replace1 (chr1 " ") [] text)) as [q|e];
      cbn [bind] in H; [|discriminate].
    injection H as <-; cbn [provisional_seizure seizure]; unfold contains.
    change (lit "가압류") with (chr1 "가" :: lit "압류").
    destruct (str_in (chr1 "가" :: lit "압류") (replace1 (chr1 " ") [] text)) eqn:E.
    + rewrite (str_in_tail _ _ _ E); split; [lia | reflexivity].
    + split; [|discriminate].
      destruct (str_in (lit "압류") (replace1 (chr1 " ") [] text)); lia.
  - intros H; destruct (normalize_mortgage_returns _ H) as [q Hq].
    rewrite Hq; cbn [bind]; eauto.
  - intros e H.
    destruct (normalize_mortgage (replace1 (chr1 " ") [] text)) as [q|e'] eqn:Hn;
      cbn [bind] in H; [discriminate|].
    injection H as <-; apply (normalize_mortgage_raises _ _ Hn).
Qed.

Lemma C9_seizure_witness :
  let text := lit "을구 가압류 근저당권설정금 360,000,000원" in
  Forall (fun amount => List.length amount <= 316)
    (re_findall_group mortgage_re (replace1 (chr1 " ") [] text))
  /\ exists f,
       parse_ocr_text_to_features text (7 # 10) = Ok f
       /\ provisional_seizure f = 1%Z /\ seizure f = 1%Z.
Proof.
  intros text.
  destruct (C9_seizure_covers_provisional_seizure text (7 # 10))
    as (Hinv & Hret & _).
  assert (Hlen : Forall (fun amount => List.length amount <= 316)
                   (re_findall_group mortgage_re (replace1 (chr1 " ") [] text))).
  { vm_compute; repeat constructor. }
  split; [exact Hlen|].
  destruct (Hret Hlen) as [f Hf].
  exists f; split; [exact Hf|].
  assert (E : provisional_seizure f = 1%Z).
  { vm_compute in Hf; injection Hf as <-; reflexivity. }
  split; [exact E | exact (proj2 (Hinv f Hf) E)].
Defined.

(** C2: on the example of the claim the code yields 5000/100000000, not 50:
    the pattern admits one comma, so each amount is read up to its second
    comma ("5,000" and "3,000").  Without any match the feature is 0. *)
Theorem C2_senior_lien_feature (ratio : Q) :
  (exists f,
     parse_ocr_text_to_features
       (lit "근저당권설정금 5,000,000,000 근저당권설정금 3,000,000,000") ratio = Ok f
     /\ re_findall_group mortgage_re
          (lit "근저당권설정금5,000,000,000근저당권설정금3,000,000,000")
        = [lit "5,000"; lit "3,000"]
     /\ mortgage_normalized f = (5000 # 100000000)%Q
     /\ ~ (mortgage_normalized f == 50)%Q)
  /\ (forall text,
        re_search mortgage_re (replace1 (chr1 " ") [] text) = None ->
        exists f,
          parse_ocr_text_to_features text ratio = Ok f
          /\ mortgage_normalized f = (0 # 1)%Q).
Proof.
  split.
  - eexists; split; [vm_compute; reflexivity|].
    split; [vm_compute; reflexivity|].
    split; [reflexivity|].
    cbn [mortgage_normalized]; intros H; vm_compute in H; discriminate H.
  - intros text H; unfold parse_ocr_text_to_features, normalize_mortgage.
    unfold re_findall_group, re_finditer; cbn [finditer_from]; rewrite H.
    cbn [map map_outcome bind]; eexists; split; reflexivity.
Qed.

Lemma C2_senior_lien_witness :
  re_search mortgage_re (replace1 (chr1 " ") [] (lit "갑구 소유권이전 을구 기록사항 없음")) = None
  /\ exists f,
       parse_ocr_text_to_features (lit "갑구 소유권이전 을구 기록사항 없음") (7 # 10) = Ok f
       /\ mortgage_normalized f = (0 # 1)%Q.
Proof.
  split; [vm_compute; reflexivity|].
  apply (proj2 (C2_senior_lien_feature (7 # 10))).
  vm_compute; reflexivity.
Defined.

(** ** Transaction matching *)

Lemma rmatch_literal (R : Type) (pat : str) :
  forall s g (k : str -> option str -> option R),
  rmatch (literal_re pat) s g k =
  if startswith pat s then k (skipn (List.length pat) s) g else None.
Proof.
  unfold literal_re, seq_of.
  induction pat as [|c pat IH]; intros s g k; cbn [map fold_right rmatch]; [reflexivity|].
  destruct s as [|x s]; [reflexivity|].
  cbn [startswith List.length skipn]; unfold char_eqb; rewrite (N.eqb_sym x c).
  destruct (c =? x)%N; [apply IH | reflexivity].
Qed.

(** Searching for the regex of a plain pattern is the substring test. *)
Lemma re_search_literal (pat s : str) :
  is_some (re_search (literal_re pat) s) = str_in pat s.
Proof.
  induction s as [|c s IH]; cbn [re_search str_in]; unfold re_match;
    rewrite rmatch_literal; destruct (startswith pat _); try reflexivity.
  rewrite orb_false_l; exact IH.
Qed.

Lemma select_rows_map {A : Type} (f : A -> bool) (l : list A) :
  select_rows l (map f l) = filter f l.
Proof.
  induction l as [|a l IH]; [reflexivity|].
  cbn [map select_rows filter]; rewrite IH; reflexivity.
Qed.

Lemma filter_none {A : Type} (f : A -> bool) (l : list A) :
  forallb (fun a => negb (f a)) l = true -> filter f l = [].
Proof.
  induction l as [|x l IH]; [reflexivity|].
  cbn [forallb filter]; intros H; apply andb_true_iff in H as [Hx Hl].
  apply negb_true_iff in Hx; rewrite Hx; apply IH; exact Hl.
Qed.

Lemma candidate_le_spec (a b : candidate) :
  candidate_le a b = true <->
  (area_diff a < area_diff b)%Q
  \/ ((area_diff a == area_diff b)%Q /\ (contract_date b <= contract_date a)%Z).
Proof.
  unfold candidate_le.
  destruct (Qcompare_spec (area_diff a) (area_diff b)) as [E|L|G].
  - rewrite Z.leb_le; split; [auto | intros [H|[_ H]]; [lra | exact H]].
  - split; auto.
  - split; [discriminate | intros [H|[H _]]; lra].
Qed.

Lemma candidate_le_total (a b : candidate) :
  candidate_le a b = false -> candidate_le b a = true.
Proof.
  intros H; apply candidate_le_spec.
  destruct (Qcompare_spec (area_diff a) (area_diff b)) as [E|L|G].
  - right; split; [symmetry; exact E|].
    destruct (Z.le_gt_cases (contract_date a) (contract_date b)) as [Hz|Hz]; [exact Hz|].
    assert (candidate_le a b = true)
      by (apply candidate_le_spec; right; split; [exact E | lia]).
    congruence.
  - assert (candidate_le a b = true) by (apply candidate_le_spec; left; exact L).
    congruence.
  - left; exact G.
Qed.

Lemma candidate_le_trans (a b c : candidate) :
  candidate_le a b = true -> candidate_le b c = true -> candidate_le a c = true.
Proof.
  rewrite !candidate_le_spec.
  intros [H1|[H1 Z1]] [H2|[H2 Z2]].
  - left; lra.
  - left; lra.
  - left; lra.
  - right; split; [lra | lia].
Qed.

Lemma insert_sorted_not_nil {A : Type} (le : A -> A -> bool) (x : A) (l : list A) :
  insert_sorted le x l <> [].
Proof. destruct l; cbn [insert_sorted]; [|destruct (le x a)]; discriminate. Qed.

(** The head of a sorted frame is a row below every other row. *)
Lemma sort_values_head {A : Type} (le : A -> A -> bool)
    (Htotal : forall a b, le a b = false -> le b a = true)
    (Htrans : forall a b c, le a b = true -> le b c = true -> le a c = true) :
  forall l first others,
    sort_values le l = first :: others ->
    In first l /\ forall x, In x l -> le first x = true.
Proof.
  assert (Hrefl : forall a, le a a = true).
  { intros a; pose proof (Htotal a a) as T.
    destruct (le a a); [reflexivity | apply T; reflexivity]. }
  induction l as [|x l IH]; intros first others H; [discriminate|].
  cbn [sort_values] in H.
  destruct (sort_values le l) as [|h t] eqn:Hs.
  - destruct l as [|y l]; [|exfalso; cbn [sort_values] in Hs;
                             apply (insert_sorted_not_nil _ _ _ Hs)].
    cbn [insert_sorted] in H; injection H as <- _.
    split; [left; reflexivity|].
    intros y [<-|[]]; apply Hrefl.
  - destruct (IH h t eq_refl) as [Hin Hmin].
    cbn [insert_sorted] in H; destruct (le x h) eqn:E; injection H as <- _.
    + split; [left; reflexivity|].
      intros y [<-|Hy]; [apply Hrefl | apply (Htrans _ h); [exact E | apply Hmin, Hy]].
    + split; [right; exact Hin|].
      intros y [<-|Hy]; [apply Htotal; exact E | apply Hmin, Hy].
Qed.

Lemma sort_values_nil {A : Type} (le : A -> A -> bool) (l : list A) :
  sort_values le l = [] -> l = [].
Proof.
  destruct l as [|x l]; [reflexivity|]; cbn [sort_values]; intros H.
  exfalso; apply (insert_sorted_not_nil _ _ _ H).
Qed.

(** What [with_dates] keeps: for every position whose date parsed, the row
    at that position with the date at that position and the area
    difference of that row; and nothing else. *)
Lemma with_dates_spec (area : Q) (rows : list trade) :
  forall dates c,
  In c (with_dates area rows dates) <->
  exists i,
    nth_error rows i = Some (cand_trade c)
    /\ nth_error dates i = Some (Some (contract_date c))
    /\ area_diff c = binary64 (Qabs (excl_area (cand_trade c) - area)).
Proof.
  induction rows as [|r rows IH]; intros dates c.
  - cbn [with_dates]; split; [intros [] | intros ([|i] & H & _); discriminate H].
  - destruct dates as [|d dates]; cbn [with_dates].
    + split; [intros [] | intros ([|i] & _ & H & _); discriminate H].
    + assert (Htail : In c (with_dates area rows dates) <->
                exists i,
                  nth_error (r :: rows) (S i) = Some (cand_trade c)
                  /\ nth_error (d :: dates) (S i) = Some (Some (contract_date c))
                  /\ area_diff c
                     = binary64 (Qabs (excl_area (cand_trade c) - area)))
        by (apply IH).
      destruct d as [ts|].
      * split.
        -- intros [<-|H]; [exists 0; repeat split|].
           apply Htail in H as [i H]; exists (S i); exact H.
        -- intros ([|i] & H1 & H2 & H3).
           ++ left; destruct c as [t a dt]; cbn in *.
              injection H1 as ->; injection H2 as ->; rewrite H3; reflexivity.
           ++ right; apply Htail; exists i; auto.
      * split.
        -- intros H; apply Htail in H as [i H]; exists (S i); exact H.
        -- intros ([|i] & H1 & H2 & H3); [discriminate H2|].
           apply Htail; exists i; auto.
Qed.

Section TransactionMatcherFacts.
Variable py_float : str -> outcome Q.
Variable to_datetime : list str -> list (option Z).
Variable re_compile : str -> outcome regex.

Lemma accumulate_skip (items : list item) :
  forall result,
  accumulate py_float items result =
  accumulate py_float (filter (well_formed py_float) items) result.
Proof.
  induction items as [|it items IH]; intros result; [reflexivity|].
  cbn [filter accumulate]; unfold well_formed.
  destruct (parse_item py_float it) eqn:E; cbn [accumulate]; [rewrite E|]; apply IH.
Qed.

Lemma accumulate_keeps (items : list item) :
  forall result t, In t result -> In t (accumulate py_float items result).
Proof.
  induction items as [|it items IH]; intros result t H; cbn [accumulate]; [exact H|].
  destruct (parse_item py_float it); apply IH; [apply in_or_app; left|]; exact H.
Qed.

Lemma accumulate_In (items : list item) :
  forall result it t,
  In it items -> parse_item py_float it = Ok t ->
  In t (accumulate py_float items result).
Proof.
  induction items as [|x items IH]; intros result it t Hin Hp; [contradiction|].
  destruct Hin as [->|H]; cbn [accumulate].
  - rewrite Hp; apply accumulate_keeps, in_or_app; right; left; reflexivity.
  - destruct (parse_item py_float x); apply (IH _ it); assumption.
Qed.

Lemma query_months_skip (registry : str -> str -> str -> outcome (list item))
    (key lawd_cd : str) (months : list nat) :
  forall result,
  query_months (without_malformed py_float registry) py_float key lawd_cd months result
  = query_months registry py_float key lawd_cd months result.
Proof.
  induction months as [|month months IH]; intros result; [reflexivity|].
  cbn [query_months]; unfold without_malformed at 1.
  destruct (registry key lawd_cd (lit "2024" ++ format_02d month)) as [items|e];
    cbn [bind]; [|reflexivity].
  rewrite <- accumulate_skip; apply IH.
Qed.

(** C8: a record that fails to parse is passed over and the records
    before and after it in the batch are accumulated as without it; the
    whole query gives what it gives on responses from which the
    malformed records are removed. *)
Theorem C8_malformed_record_is_skipped :
  (forall (bad : item) (e : exn) (before after : list item) (result : list trade),
     parse_item py_float bad = Raise e ->
     accumulate py_float (before ++ bad :: after) result
     = accumulate py_float (before ++ after) result
     /\ forall it t,
          In it (before ++ after) -> parse_item py_float it = Ok t ->
          In t (accumulate py_float (before ++ bad :: after) result))
  /\ (forall registry lawd_cd building_name area service_key,
        get_latest_officetel_trade registry py_float to_datetime re_compile
          lawd_cd building_name area service_key
        = get_latest_officetel_trade (without_malformed py_float registry)
            py_float to_datetime re_compile
            lawd_cd building_name area service_key).
Proof.
  split.
  - intros bad e before after result Hbad.
    assert (E : accumulate py_float (before ++ bad :: after) result
                = accumulate py_float (before ++ after) result).
    { rewrite (accumulate_skip (before ++ bad :: after)),
              (accumulate_skip (before ++ after)).
      rewrite !filter_app; cbn [filter]; unfold well_formed at 2.
      rewrite Hbad; reflexivity. }
    split; [exact E|].
    intros it t Hin Hp; rewrite E; apply (accumulate_In _ _ it); assumption.
  - intros registry lawd_cd building_name area service_key.
    unfold get_latest_officetel_trade; rewrite query_months_skip; reflexivity.
Qed.

(** C3: when the twelve responses carry no record at all, [result] is
    empty, the frame has no column "단지명" and the lookup of that column
    raises KeyError before the emptiness test is reached.  When records
    were accumulated and none of them contains the building name, the
    result is the absent one. *)
Theorem C3_empty_candidate_set :
  (forall lawd_cd building_name area service_key,
     get_latest_officetel_trade (fun _ _ _ => Ok []) py_float to_datetime
       re_compile lawd_cd building_name area service_key
     = Raise KeyError)
  /\ (forall registry lawd_cd building_name area service_key result,
        query_months registry py_float service_key lawd_cd (seq 1 12) [] = Ok result ->
        result <> [] ->
        re_compile building_name = Ok (literal_re building_name) ->
        forallb (fun t => negb (str_in building_name (complex_name t))) result = true ->
        get_latest_officetel_trade registry py_float to_datetime re_compile
          lawd_cd building_name area service_key
        = Ok None).
Proof.
  split; [reflexivity|].
  intros registry lawd_cd building_name area service_key result Hq Hne Hc Hnone.
  unfold get_latest_officetel_trade; rewrite Hq; cbn [bind].
  unfold best_match, frame_column.
  destruct result as [|t result]; [congruence|].
  cbn [bind]; rewrite Hc; cbn [bind].
  rewrite map_map.
  rewrite (map_ext _ (fun t => str_in building_name (complex_name t)))
    by (intros; apply re_search_literal).
  rewrite select_rows_map.
  rewrite (filter_none _ _ Hnone); reflexivity.
Qed.

Lemma best_match_ranks_dated_rows
    (result : list trade) (building_name : str) (area : Q) :
  result <> [] ->
  re_compile building_name = Ok (literal_re building_name) ->
  best_match to_datetime re_compile result building_name area
  = let rows :=
      filter (fun t => str_in building_name (complex_name t)) result in
    let dated := with_dates area rows (to_datetime (map contract_day rows)) in
    match dated with
    | [] => Ok None
    | _ :: _ =>
        match sort_values candidate_le dated with
        | latest :: _ => Ok (Some latest)
        | [] => Raise IndexError
        end
    end.
Proof.
  intros Hne Hc; unfold best_match, frame_column.
  destruct result as [|r0 result0]; [congruence|].
  cbn [bind]; rewrite Hc; cbn [bind].
  rewrite map_map.
  rewrite (map_ext _ (fun t => str_in building_name (complex_name t)))
    by (intros; apply re_search_literal).
  rewrite select_rows_map; reflexivity.
Qed.

(** C4: [rows] are the accumulated records that contain the building
    name and [dates] the parsed contract days of these rows, position by
    position.  When some row has a date, the function returns such a row
    with its own date and its own area difference (the float that
    [abs(x - area)] gives); no row that has a date has a smaller area
    difference, and none with an equal one has a later date. *)
Theorem C4_best_match
    (registry : str -> str -> str -> outcome (list item))
    (lawd_cd building_name : str) (area : Q) (service_key : str)
    (result : list trade) :
  let rows := filter (fun t => str_in building_name (complex_name t)) result in
  let dates := to_datetime (map contract_day rows) in
  query_months registry py_float service_key lawd_cd (seq 1 12) [] = Ok result ->
  re_compile building_name = Ok (literal_re building_name) ->
  (exists i t d, nth_error rows i = Some t /\ nth_error dates i = Some (Some d)) ->
  exists best i,
    get_latest_officetel_trade registry py_float to_datetime re_compile
      lawd_cd building_name area service_key = Ok (Some best)
    /\ nth_error rows i = Some (cand_trade best)
    /\ nth_error dates i = Some (Some (contract_date best))
    /\ In (cand_trade best) result
    /\ str_in building_name (complex_name (cand_trade best)) = true
    /\ area_diff best = binary64 (Qabs (excl_area (cand_trade best) - area))
    /\ forall j t d,
         nth_error rows j = Some t -> nth_error dates j = Some (Some d) ->
         (area_diff best <= binary64 (Qabs (excl_area t - area)))%Q
         /\ ((binary64 (Qabs (excl_area t - area)) == area_diff best)%Q ->
             (d <= contract_date best)%Z).
Proof.
  intros rows dates Hq Hc (i0 & t0 & d0 & Hr0 & Hd0).
  assert (Hne : result <> []).
  { intros ->; subst rows; destruct i0; discriminate Hr0. }
  unfold get_latest_officetel_trade; rewrite Hq; cbn [bind].
  rewrite (best_match_ranks_dated_rows _ _ _ Hne Hc); cbv zeta.
  fold rows; fold dates.
  assert (Hin0 : In {| cand_trade := t0;
                       area_diff := binary64 (Qabs (excl_area t0 - area));
                       contract_date := d0 |} (with_dates area rows dates)).
  { apply with_dates_spec; exists i0; cbn; auto. }
  destruct (with_dates area rows dates) as [|c0 cs] eqn:Hcs; [contradiction|].
  destruct (sort_values candidate_le (c0 :: cs)) as [|best others] eqn:Hs;
    [apply sort_values_nil in Hs; discriminate|].
  destruct (sort_values_head candidate_le candidate_le_total candidate_le_trans
              _ _ _ Hs) as [Hin Hmin].
  rewrite <- Hcs in Hin, Hmin.
  apply with_dates_spec in Hin as (i & Hi1 & Hi2 & Hi3).
  exists best, i; split; [reflexivity|].
  split; [exact Hi1|]; split; [exact Hi2|].
  pose proof (nth_error_In _ _ Hi1) as Hrow.
  apply filter_In in Hrow as [Hrow Hname].
  split; [exact Hrow|]; split; [exact Hname|]; split; [exact Hi3|].
  intros j t d Hj1 Hj2.
  assert (Hc' : In {| cand_trade := t;
                      area_diff := binary64 (Qabs (excl_area t - area));
                      contract_date := d |} (with_dates area rows dates)).
  { apply with_dates_spec; exists j; cbn; auto. }
  apply Hmin, candidate_le_spec in Hc'; cbn [area_diff contract_date] in Hc'.
  destruct Hc' as [H|[H Hz]]; split; try lra; intros; try lra; exact Hz.
Qed.
End TransactionMatcherFacts.

Lemma sample_query :
  query_months sample_registry float_of_digits (lit "key") (lit "41117")
    (seq 1 12) [] = Ok sample_result.
Proof. vm_compute; reflexivity. Qed.

Lemma C8_malformed_record_witness :
  let before := [sample_item "가나오피스텔" "84" "15" "35,000"] in
  let after := [sample_item "가나오피스텔" "59" "20" "25,000"] in
  parse_item float_of_digits nameless_item = Raise AttributeError
  /\ accumulate float_of_digits (before ++ nameless_item :: after) []
     = accumulate float_of_digits (before ++ after) []
  /\ forall it t,
       In it (before ++ after) -> parse_item float_of_digits it = Ok t ->
       In t (accumulate float_of_digits (before ++ nameless_item :: after) []).
Proof.
  intros before after.
  assert (Hbad : parse_item float_of_digits nameless_item = Raise AttributeError)
    by reflexivity.
  split; [exact Hbad|].
  exact (proj1 (C8_malformed_record_is_skipped float_of_digits
                  (map day_number) compile_plain)
           nameless_item AttributeError before after [] Hbad).
Defined.

Lemma C3_empty_candidate_set_witness :
  query_months sample_registry float_of_digits (lit "key") (lit "41117")
    (seq 1 12) [] = Ok sample_result
  /\ sample_result <> []
  /\ compile_plain (lit "마바") = Ok (literal_re (lit "마바"))
  /\ forallb (fun t => negb (str_in (lit "마바") (complex_name t))) sample_result = true
  /\ get_latest_officetel_trade sample_registry float_of_digits (map day_number)
       compile_plain (lit "41117") (lit "마바") (inject_Z 84) (lit "key")
     = Ok None.
Proof.
  assert (H2 : sample_result <> []) by discriminate.
  assert (H3 : compile_plain (lit "마바") = Ok (literal_re (lit "마바")))
    by reflexivity.
  assert (H4 : forallb (fun t => negb (str_in (lit "마바") (complex_name t)))
                 sample_result = true) by (vm_compute; reflexivity).
  repeat (split; [assumption || exact sample_query|]).
  exact (proj2 (C3_empty_candidate_set float_of_digits (map day_number) compile_plain)
           sample_registry (lit "41117") (lit "마바") (inject_Z 84) (lit "key")
           sample_result sample_query H2 H3 H4).
Defined.

Lemma C4_best_match_witness :
  let rows := filter (fun t => str_in (lit "가나") (complex_name t)) sample_result in
  let dates := map day_number (map contract_day rows) in
  query_months sample_registry float_of_digits (lit "key") (lit "41117")
    (seq 1 12) [] = Ok sample_result
  /\ compile_plain (lit "가나") = Ok (literal_re (lit "가나"))
  /\ (exists i t d, nth_error rows i = Some t /\ nth_error dates i = Some (Some d))
  /\ exists best i,
       get_latest_officetel_trade sample_registry float_of_digits (map day_number)
         compile_plain (lit "41117") (lit "가나") (inject_Z 84) (lit "key")
       = Ok (Some best)
       /\ nth_error rows i = Some (cand_trade best)
       /\ nth_error dates i = Some (Some (contract_date best))
       /\ In (cand_trade best) sample_result
       /\ str_in (lit "가나") (complex_name (cand_trade best)) = true
       /\ area_diff best
          = binary64 (Qabs (excl_area (cand_trade best) - inject_Z 84))
       /\ forall j t d,
            nth_error rows j = Some t -> nth_error dates j = Some (Some d) ->
            (area_diff best <= binary64 (Qabs (excl_area t - inject_Z 84)))%Q
            /\ ((binary64 (Qabs (excl_area t - inject_Z 84)) == area_diff best)%Q ->
                (d <= contract_date best)%Z).
Proof.
  intros rows dates.
  assert (H2 : compile_plain (lit "가나") = Ok (literal_re (lit "가나")))
    by reflexivity.
  assert (H3 : exists i t d,
            nth_error rows i = Some t /\ nth_error dates i = Some (Some d)).
  { exists 0; do 2 eexists; split; vm_compute; reflexivity. }
  split; [exact sample_query|]; split; [exact H2|]; split; [exact H3|].
  exact (C4_best_match float_of_digits (map day_number) compile_plain
           sample_registry (lit "41117") (lit "가나") (inject_Z 84) (lit "key")
           sample_result sample_query H2 H3).
Defined.

(** On the sample registry the match for "가나" at 84 is the sale of the
    28th: both sales of 84 differ by 0 and the later one wins. *)
Example sample_best_match :
  option_map (fun c => (amount (cand_trade c), contract_date c))
    match get_latest_officetel_trade sample_registry float_of_digits
            (map day_number) compile_plain (lit "41117") (lit "가나")
            (inject_Z 84) (lit "key") with
    | Ok r => r
    | Raise _ => None
    end
  = Some (lit "36,500", 20240328%Z).
Proof. vm_compute; reflexivity. Qed.

(** The area difference is the one the float subtraction computes.  The
    doubles nearest 10.1 and 157.9 lie at unequal distances from 84, yet
    both differences round to the same double, so the two sales tie and the
    later one is returned. *)
Example rounded_area_tie :
  let a1 := (5685794529555251 # 562949953421312)%Q in
  let a2 := (5555612352826573 # 35184372088832)%Q in
  let sales :=
    [ {| complex_name := lit "가나"; excl_area := a1;
         contract_day := lit "2024-1-5"; amount := lit "10,000" |};
      {| complex_name := lit "가나"; excl_area := a2;
         contract_day := lit "2024-3-5"; amount := lit "20,000" |} ] in
  (Qabs (a1 - inject_Z 84) ?= Qabs (a2 - inject_Z 84))%Q = Lt
  /\ binary64 (Qabs (a1 - inject_Z 84)) = binary64 (Qabs (a2 - inject_Z 84))
  /\ option_map (fun c => (amount (cand_trade c), contract_date c))
       match best_match (map day_number) compile_plain sales (lit "가나")
               (inject_Z 84) with
       | Ok r => r
       | Raise _ => None
       end
     = Some (lit "20,000", 20240305%Z).
Proof. split; [|split]; vm_compute; reflexivity. Qed.

(** * Further properties *)

(** ** Text cleaning and the address parse *)

Lemma filter_filter {A : Type} (f : A -> bool) (l : list A) :
  filter f (filter f l) = filter f l.
Proof.
  induction l as [|a l IH]; [reflexivity|].
  cbn [filter]; destruct (f a) eqn:E; [cbn [filter]; rewrite E, IH|]; auto.
Qed.

(** X1: [clean_korean_text] keeps exactly the Hangul syllables of its
    argument, in their order; cleaning a cleaned text changes nothing, and
    the cleaning of a concatenation is the concatenation of the cleanings. *)
Theorem X1_clean_korean_text_keeps_hangul (text more : str) :
  clean_korean_text text = filter is_hangul_syllable text
  /\ clean_korean_text (clean_korean_text text) = clean_korean_text text
  /\ clean_korean_text (text ++ more)
     = clean_korean_text text ++ clean_korean_text more.
Proof.
  rewrite !clean_korean_text_filter.
  split; [reflexivity|]; split; [apply filter_filter | apply filter_app].
Qed.

Lemma recognized_text_concat (pages : list str) :
  forall acc,
  fold_left (fun text page_text => text ++ page_text ++ [newline]) pages acc
  = acc ++ List.concat (map (fun page => page ++ [newline]) pages).
Proof.
  induction pages as [|p pages IH]; intros acc; cbn [fold_left map List.concat].
  - rewrite app_nil_r; reflexivity.
  - rewrite IH, <- !app_assoc; reflexivity.
Qed.

Lemma re_search_marker_needs_bracket (s : str) :
  existsb (char_eqb (chr1 "[")) s = false -> re_search marker_re s = None.
Proof.
  induction s as [|c s IH]; intros H; [reflexivity|].
  cbn [existsb] in H; apply orb_false_iff in H as [Hc Hs].
  cbn [re_search]; rewrite (IH Hs).
  unfold re_match, marker_re, seq_of; cbn [fold_right rmatch].
  unfold char_eqb in *; rewrite N.eqb_sym, Hc; reflexivity.
Qed.

(** X2: a document none of whose pages contains the character "[" (an empty
    document among them) has no marker line: the parse returns the absent
    pair. *)
Theorem X2_no_bracket_no_address (pages : list str) :
  forallb (fun page => negb (existsb (char_eqb (chr1 "[")) page)) pages = true ->
  extract_address_and_building_from_pdf pages = Ok (None, None).
Proof.
  intros H.
  unfold extract_address_and_building_from_pdf, extract_address_and_building_from_text.
  rewrite re_search_marker_needs_bracket; [reflexivity|].
  unfold recognized_text; rewrite recognized_text_concat; cbn [app].
  induction pages as [|p pages IH]; [reflexivity|].
  cbn [forallb] in H; apply andb_true_iff in H as [Hp Hps].
  cbn [map List.concat]; rewrite !existsb_app, (IH Hps).
  apply negb_true_iff in Hp; rewrite Hp; reflexivity.
Qed.

Lemma X2_no_bracket_witness :
  forallb (fun page => negb (existsb (char_eqb (chr1 "[")) page))
    [lit "등기사항전부증명서"; lit "경기도 수원시 영통구 이의동 123-4"] = true
  /\ extract_address_and_building_from_pdf
       [lit "등기사항전부증명서"; lit "경기도 수원시 영통구 이의동 123-4"]
     = Ok (None, None).
Proof.
  split; [reflexivity|].
  apply X2_no_bracket_no_address; reflexivity.
Defined.

(** The characters whose presence makes the suffix pattern match a word. *)
Lemma suffix_re_match_marker (c : char) (post : str) :
  c = chr1 "제" \/ c = chr1 "층" \/ c = chr1 "동" ->
  is_some (re_match suffix_re (c :: post)) = true.
Proof. intros [-> | [-> | ->]]; reflexivity. Qed.

Lemma suffix_re_search_marker (c : char) (w : str) :
  c = chr1 "제" \/ c = chr1 "층" \/ c = chr1 "동" ->
  In c w -> is_some (re_search suffix_re w) = true.
Proof.
  intros Hc; induction w as [|x w IH]; intros Hin; [contradiction|].
  cbn [re_search].
  destruct (re_match suffix_re (x :: w)) eqn:E; [reflexivity|].
  destruct Hin as [->|Hin].
  - pose proof (suffix_re_match_marker c w Hc) as T.
    rewrite E in T; discriminate T.
  - apply IH; exact Hin.
Qed.

Lemma parse_marker_line_building (line : str) (address : option str) (b : str) :
  parse_marker_line line = Ok (address, Some b) ->
  forall c, In c b ->
  is_hangul_syllable c = true
  /\ c <> chr1 "제" /\ c <> chr1 "층" /\ c <> chr1 "동".
Proof.
  unfold parse_marker_line; intros H c Hc.
  destruct (scan_words 0 (split line) (-1) <? 3)%Z; [discriminate|].
  destruct (getitem (split line) 0); [|discriminate].
  destruct (getitem (split line) 1); [|discriminate].
  destruct (getitem (split line) 2); [|discriminate].
  cbn [bind] in H; injection H as _ <-.
  rewrite clean_korean_text_filter in Hc; apply filter_In in Hc as [Hc Hh].
  split; [exact Hh|].
  unfold join in Hc; apply in_concat in Hc as (w & Hw & Hcw).
  apply filter_In in Hw as [_ Hw]; apply negb_true_iff in Hw.
  assert (Hno : forall x,
            x = chr1 "제" \/ x = chr1 "층" \/ x = chr1 "동" -> c <> x).
  { intros x Hx ->; pose proof (suffix_re_search_marker x w Hx Hcw) as T.
    rewrite Hw in T; discriminate T. }
  repeat split; apply Hno; auto.
Qed.

(** X3: a building name the parse returns consists of Hangul syllables and
    never contains "제", "층" or "동": every word with one of these is
    dropped whole before the name is put together. *)
Theorem X3_building_name_characters
    (pages : list str) (address : option str) (building_name : str) :
  extract_address_and_building_from_pdf pages = Ok (address, Some building_name) ->
  forall c, In c building_name ->
  is_hangul_syllable c = true
  /\ c <> chr1 "제" /\ c <> chr1 "층" /\ c <> chr1 "동".
Proof.
  unfold extract_address_and_building_from_pdf,
    extract_address_and_building_from_text.
  destruct (re_search marker_re (recognized_text pages)) as [m|]; [|discriminate].
  destruct (group1 m) as [g|]; [|discriminate].
  apply parse_marker_line_building.
Qed.

(** A complex called "제일오피스텔" loses its whole name. *)
Lemma X3_building_name_witness :
  let pages := [lit "[집합건물] 경기도 수원시 영통구 이의동 123-4 제일오피스텔 가나타워"] in
  extract_address_and_building_from_pdf pages
    = Ok (Some (lit "경기도 수원시영통구 이의동"), Some (lit "가나타워"))
  /\ forall c, In c (lit "가나타워") ->
       is_hangul_syllable c = true
       /\ c <> chr1 "제" /\ c <> chr1 "층" /\ c <> chr1 "동".
Proof.
  intros pages.
  assert (E : extract_address_and_building_from_pdf pages
              = Ok (Some (lit "경기도 수원시영통구 이의동"), Some (lit "가나타워")))
    by (vm_compute; reflexivity).
  split; [exact E|].
  exact (X3_building_name_characters pages _ _ E).
Defined.

(** ** Code lookup *)

(** X4: the only exception [get_lawd_cd] raises is TypeError, and it raises
    it exactly when the address has at least three components and the first
    row that matches them has a missing code cell; an address of any shape
    never makes the indexing of its components fail. *)
Theorem X4_get_lawd_cd_raises_only_type_error
    (address : str) (table : list code_row) :
  (forall e, get_lawd_cd address table = Raise e -> e = TypeError)
  /\ (get_lawd_cd address table = Raise TypeError
      <-> exists sido sigungu eupmyeondong more r others,
            split address = sido :: sigungu :: eupmyeondong :: more
            /\ filter (row_matches sido sigungu eupmyeondong) table
               = r :: others
            /\ lawd_code r = None).
Proof.
  unfold get_lawd_cd.
  destruct (split address) as [|a [|b [|c more]]] eqn:Hs;
    cbn [List.length Nat.ltb Nat.leb getitem nth_error bind].
  - split; [discriminate|].
    split; [discriminate | intros (? & ? & ? & ? & ? & ? & H & _); discriminate H].
  - split; [discriminate|].
    split; [discriminate | intros (? & ? & ? & ? & ? & ? & H & _); discriminate H].
  - split; [discriminate|].
    split; [discriminate | intros (? & ? & ? & ? & ? & ? & H & _); discriminate H].
  - destruct (filter (row_matches a b c) table) as [|r others] eqn:Hf.
    + split; [discriminate|].
      split; [discriminate|].
      intros (a' & b' & c' & more' & r' & others' & H & Hf' & _).
      injection H as <- <- <- <-; rewrite Hf in Hf'; discriminate Hf'.
    + destruct (lawd_code r) eqn:Hc.
      * split; [discriminate|].
        split; [discriminate|].
        intros (a' & b' & c' & more' & r' & others' & H & Hf' & Hc').
        injection H as <- <- <- <-; rewrite Hf in Hf'.
        injection Hf' as <- <-; rewrite Hc in Hc'; discriminate Hc'.
      * split; [intros e H; congruence|].
        split; [|reflexivity].
        intros _; exists a, b, c, more, r, others; auto.
Qed.

Lemma X4_get_lawd_cd_type_error_witness :
  let row := {| sido_name := Some (lit "경기도");
                sigungu_name := Some (lit "수원시영통구");
                eupmyeondong_name := Some (lit "이의동");
                lawd_code := None |} in
  (exists sido sigungu eupmyeondong more r others,
     split (lit "경기도 수원시영통구 이의동")
       = sido :: sigungu :: eupmyeondong :: more
     /\ filter (row_matches sido sigungu eupmyeondong) [row] = r :: others
     /\ lawd_code r = None)
  /\ get_lawd_cd (lit "경기도 수원시영통구 이의동") [row] = Raise TypeError.
Proof.
  intros row.
  assert (H : exists sido sigungu eupmyeondong more r others,
                split (lit "경기도 수원시영통구 이의동")
                  = sido :: sigungu :: eupmyeondong :: more
                /\ filter (row_matches sido sigungu eupmyeondong) [row]
                   = r :: others
                /\ lawd_code r = None).
  { exists (lit "경기도"), (lit "수원시영통구"), (lit "이의동"), [], row, [].
    split; [vm_compute; reflexivity|].
    split; [vm_compute; reflexivity | reflexivity]. }
  split; [exact H|].
  exact (proj2 (proj2 (X4_get_lawd_cd_raises_only_type_error
                         (lit "경기도 수원시영통구 이의동") [row])) H).
Defined.

Lemma split_from_space_app (a : str) (c : char) (b : str) :
  isspace c = true ->
  forall cur, split_from cur (a ++ c :: b) = split_from cur a ++ split b.
Proof.
  intros Hc; induction a as [|x a IH]; intros cur; cbn [app split_from].
  - rewrite Hc; destruct cur; reflexivity.
  - destruct (isspace x); [destruct cur|]; rewrite IH; reflexivity.
Qed.

(** X5: once an address has three components, whatever follows them after
    whitespace does not change the lookup. *)
Theorem X5_get_lawd_cd_ignores_what_follows
    (address : str) (c : char) (extra : str) (table : list code_row) :
  3 <= List.length (split address) -> isspace c = true ->
  get_lawd_cd (address ++ c :: extra) table = get_lawd_cd address table.
Proof.
  intros Hlen Hc; unfold get_lawd_cd, split.
  rewrite (split_from_space_app address c extra Hc []).
  fold (split address).
  destruct (split address) as [|w0 [|w1 [|w2 more]]];
    cbn [List.length] in Hlen; try lia.
  reflexivity.
Qed.

Lemma X5_get_lawd_cd_witness :
  let row := {| sido_name := Some (lit "경기도");
                sigungu_name := Some (lit "수원시영통구");
                eupmyeondong_name := Some (lit "이의동");
                lawd_code := Some (lit "4111710300") |} in
  3 <= List.length (split (lit "경기도 수원시영통구 이의동"))
  /\ isspace (chr1 " ") = true
  /\ get_lawd_cd (lit "경기도 수원시영통구 이의동" ++ chr1 " " :: lit "123-4 가나") [row]
     = get_lawd_cd (lit "경기도 수원시영통구 이의동") [row].
Proof.
  intros row.
  assert (H1 : 3 <= List.length (split (lit "경기도 수원시영통구 이의동")))
    by (vm_compute; lia).
  split; [exact H1|]; split; [reflexivity|].
  exact (X5_get_lawd_cd_ignores_what_follows
           (lit "경기도 수원시영통구 이의동") (chr1 " ") (lit "123-4 가나") [row]
           H1 isspace_blank).
Defined.

(** ** The monthly queries *)

Lemma deal_months_seq :
  deal_months = map (fun month => lit "2024" ++ format_02d month) (seq 1 12).
Proof. vm_compute; reflexivity. Qed.

Lemma accumulate_parsed (py_float : str -> outcome Q) (items : list item) :
  forall result,
  accumulate py_float items result = result ++ parsed_records py_float items.
Proof.
  unfold parsed_records.
  induction items as [|it items IH]; intros result; cbn [accumulate flat_map].
  - rewrite app_nil_r; reflexivity.
  - destruct (parse_item py_float it); rewrite IH; [rewrite <- app_assoc|]; reflexivity.
Qed.

Section MonthlyQueries.
Variable py_float : str -> outcome Q.
Variable to_datetime : list str -> list (option Z).
Variable re_compile : str -> outcome regex.

Lemma query_months_ext
    (reg1 reg2 : str -> str -> str -> outcome (list item))
    (key lawd_cd : str) (months : list nat) :
  (forall month, In month months ->
     reg1 key lawd_cd (lit "2024" ++ format_02d month)
     = reg2 key lawd_cd (lit "2024" ++ format_02d month)) ->
  forall result,
  query_months reg1 py_float key lawd_cd months result
  = query_months reg2 py_float key lawd_cd months result.
Proof.
  induction months as [|month months IH]; intros H result; [reflexivity|].
  cbn [query_months]; rewrite (H month) by (left; reflexivity).
  destruct (reg2 key lawd_cd (lit "2024" ++ format_02d month)); cbn [bind];
    [|reflexivity].
  apply IH; intros m Hm; apply H; right; exact Hm.
Qed.

(** X6: the function asks the registry for the twelve months "202401" to
    "202412" of the given region, and for nothing else: two registries that
    answer these twelve requests alike give the same outcome. *)
Theorem X6_only_the_twelve_months_of_2024
    (reg1 reg2 : str -> str -> str -> outcome (list item))
    (lawd_cd building_name : str) (area : Q) (service_key : str) :
  (forall deal_ymd, In deal_ymd deal_months ->
     reg1 service_key lawd_cd deal_ymd = reg2 service_key lawd_cd deal_ymd) ->
  get_latest_officetel_trade reg1 py_float to_datetime re_compile
    lawd_cd building_name area service_key
  = get_latest_officetel_trade reg2 py_float to_datetime re_compile
      lawd_cd building_name area service_key.
Proof.
  intros H; unfold get_latest_officetel_trade.
  rewrite (query_months_ext reg1 reg2); [reflexivity|].
  intros month Hm; apply H; rewrite deal_months_seq.
  apply (in_map (fun month => lit "2024" ++ format_02d month)); exact Hm.
Qed.

Lemma query_months_raise
    (registry : str -> str -> str -> outcome (list item))
    (key lawd_cd : str) (month : nat) (after : list nat) (e : exn) :
  registry key lawd_cd (lit "2024" ++ format_02d month) = Raise e ->
  forall before result,
  (forall m, In m before ->
     exists items, registry key lawd_cd (lit "2024" ++ format_02d m) = Ok items) ->
  query_months registry py_float key lawd_cd (before ++ month :: after) result
  = Raise e.
Proof.
  intros He; induction before as [|m before IH]; intros result H;
    cbn [app query_months].
  - rewrite He; reflexivity.
  - destruct (H m (or_introl eq_refl)) as [items Hi]; rewrite Hi; cbn [bind].
    apply IH; intros m' Hm'; apply H; right; exact Hm'.
Qed.

(** X7: an exception of a request is not caught: when the request of some
    month raises and the requests of the months before it returned, the
    whole call raises that exception, whatever was accumulated so far. *)
Theorem X7_request_exception_propagates
    (registry : str -> str -> str -> outcome (list item))
    (lawd_cd building_name : str) (area : Q) (service_key : str)
    (month : nat) (e : exn) :
  1 <= month <= 12 ->
  (forall m, 1 <= m < month ->
     exists items,
       registry service_key lawd_cd (lit "2024" ++ format_02d m) = Ok items) ->
  registry service_key lawd_cd (lit "2024" ++ format_02d month) = Raise e ->
  get_latest_officetel_trade registry py_float to_datetime re_compile
    lawd_cd building_name area service_key
  = Raise e.
Proof.
  intros Hm Hbefore He; unfold get_latest_officetel_trade.
  replace (seq 1 12)
    with (seq 1 (month - 1) ++ month :: seq (S month) (12 - month)).
  - rewrite (query_months_raise registry service_key lawd_cd month _ e He);
      [reflexivity|].
    intros m Hin; apply in_seq in Hin; apply Hbefore; lia.
  - transitivity (seq 1 ((month - 1) + S (12 - month))); [|f_equal; lia].
    rewrite seq_app; cbn [seq].
    replace (1 + (month - 1)) with month by lia; reflexivity.
Qed.

Lemma query_months_pooled
    (registry : str -> str -> str -> outcome (list item))
    (key lawd_cd : str) (items_of : nat -> list item) (months : list nat) :
  (forall m, In m months ->
     registry key lawd_cd (lit "2024" ++ format_02d m) = Ok (items_of m)) ->
  forall result,
  query_months registry py_float key lawd_cd months result
  = Ok (result ++ flat_map (fun m => parsed_records py_float (items_of m)) months).
Proof.
  induction months as [|m months IH]; intros H result; cbn [query_months flat_map].
  - rewrite app_nil_r; reflexivity.
  - rewrite (H m) by (left; reflexivity); cbn [bind].
    rewrite IH by (intros m' Hm'; apply H; right; exact Hm').
    rewrite accumulate_parsed, <- app_assoc; reflexivity.
Qed.

(** X8: when the twelve requests return, the records that are ranked are
    the well-formed records of January, then those of February, and so on
    to December, each month in the order of its response. *)
Theorem X8_records_are_pooled_in_month_order
    (registry : str -> str -> str -> outcome (list item))
    (lawd_cd building_name : str) (area : Q) (service_key : str)
    (items_of : nat -> list item) :
  (forall m, 1 <= m <= 12 ->
     registry service_key lawd_cd (lit "2024" ++ format_02d m) = Ok (items_of m)) ->
  query_months registry py_float service_key lawd_cd (seq 1 12) []
  = Ok (flat_map (fun m => parsed_records py_float (items_of m)) (seq 1 12))
  /\ get_latest_officetel_trade registry py_float to_datetime re_compile
       lawd_cd building_name area service_key
     = best_match to_datetime re_compile
         (flat_map (fun m => parsed_records py_float (items_of m)) (seq 1 12))
         building_name area.
Proof.
  intros H.
  assert (E : query_months registry py_float service_key lawd_cd (seq 1 12) []
              = Ok (flat_map (fun m => parsed_records py_float (items_of m))
                      (seq 1 12))).
  { rewrite (query_months_pooled registry service_key lawd_cd items_of);
      [reflexivity|].
    intros m Hm; apply in_seq in Hm; apply H; lia. }
  split; [exact E|].
  unfold get_latest_officetel_trade; rewrite E; reflexivity.
Qed.

(** X9: once some record was accumulated and the building name compiles to
    its literal pattern, the result is the absent one exactly when no
    position of the filtered frame holds both a record whose complex name
    contains the building name and a contract date that [to_datetime]
    parses. *)
Theorem X9_absent_exactly_without_candidates
    (registry : str -> str -> str -> outcome (list item))
    (lawd_cd building_name : str) (area : Q) (service_key : str)
    (result : list trade) :
  let rows := filter (fun t => str_in building_name (complex_name t)) result in
  let dates := to_datetime (map contract_day rows) in
  query_months registry py_float service_key lawd_cd (seq 1 12) [] = Ok result ->
  result <> [] ->
  re_compile building_name = Ok (literal_re building_name) ->
  (get_latest_officetel_trade registry py_float to_datetime re_compile
     lawd_cd building_name area service_key = Ok None
   <-> ~ (exists i t d,
            nth_error rows i = Some t /\ nth_error dates i = Some (Some d))).
Proof.
  intros rows dates Hq Hne Hc.
  unfold get_latest_officetel_trade; rewrite Hq; cbn [bind].
  rewrite (best_match_ranks_dated_rows to_datetime re_compile result
             building_name area Hne Hc); cbv zeta.
  fold rows; fold dates.
  destruct (with_dates area rows dates) as [|c0 cs] eqn:Hd.
  - split; [|reflexivity].
    intros _ (i & t & d & Hr & Hdt).
    assert (Hin : In {| cand_trade := t;
                        area_diff := binary64 (Qabs (excl_area t - area));
                        contract_date := d |} (with_dates area rows dates)).
    { apply with_dates_spec; exists i; cbn; auto. }
    rewrite Hd in Hin; destruct Hin.
  - assert (Hin : In c0 (with_dates area rows dates))
      by (rewrite Hd; left; reflexivity).
    apply with_dates_spec in Hin as (i & Hi1 & Hi2 & _).
    destruct (sort_values candidate_le (c0 :: cs)) eqn:Hs.
    + split; [discriminate|].
      intros H; exfalso; apply H.
      exists i, (cand_trade c0), (contract_date c0); auto.
    + split; [discriminate|].
      intros H; exfalso; apply H.
      exists i, (cand_trade c0), (contract_date c0); auto.
Qed.
End MonthlyQueries.

Lemma X6_only_the_twelve_months_witness :
  let other := fun key lawd_cd deal_ymd =>
                 if str_eqb deal_ymd (lit "202501") then Raise RequestError
                 else sample_registry key lawd_cd deal_ymd in
  (forall deal_ymd, In deal_ymd deal_months ->
     sample_registry (lit "key") (lit "41117") deal_ymd
     = other (lit "key") (lit "41117") deal_ymd)
  /\ get_latest_officetel_trade sample_registry float_of_digits (map day_number)
       compile_plain (lit "41117") (lit "가나") (inject_Z 84) (lit "key")
     = get_latest_officetel_trade other float_of_digits (map day_number)
         compile_plain (lit "41117") (lit "가나") (inject_Z 84) (lit "key").
Proof.
  intros other.
  assert (H : forall deal_ymd, In deal_ymd deal_months ->
            sample_registry (lit "key") (lit "41117") deal_ymd
            = other (lit "key") (lit "41117") deal_ymd).
  { intros d Hd; unfold deal_months in Hd.
    repeat (destruct Hd as [<-|Hd]; [reflexivity|]); contradiction. }
  split; [exact H|].
  exact (X6_only_the_twelve_months_of_2024 float_of_digits (map day_number)
           compile_plain sample_registry other (lit "41117") (lit "가나")
           (inject_Z 84) (lit "key") H).
Defined.

Lemma X7_request_exception_witness :
  let registry := fun (key lawd_cd deal_ymd : str) =>
                    if str_eqb deal_ymd (lit "202403")
                    then Raise RequestError
                    else sample_registry key lawd_cd (lit "202403") in
  1 <= 3 <= 12
  /\ (forall m, 1 <= m < 3 ->
        exists items,
          registry (lit "key") (lit "41117") (lit "2024" ++ format_02d m) = Ok items)
  /\ registry (lit "key") (lit "41117") (lit "2024" ++ format_02d 3)
     = Raise RequestError
  /\ get_latest_officetel_trade registry float_of_digits (map day_number)
       compile_plain (lit "41117") (lit "가나") (inject_Z 84) (lit "key")
     = Raise RequestError.
Proof.
  intros registry.
  assert (H1 : 1 <= 3 <= 12) by lia.
  assert (H2 : forall m, 1 <= m < 3 ->
            exists items,
              registry (lit "key") (lit "41117") (lit "2024" ++ format_02d m)
              = Ok items).
  { intros m Hm; assert (Hc : m = 1 \/ m = 2) by lia.
    destruct Hc as [-> | ->]; eexists; vm_compute; reflexivity. }
  assert (H3 : registry (lit "key") (lit "41117") (lit "2024" ++ format_02d 3)
               = Raise RequestError) by reflexivity.
  split; [exact H1|]; split; [exact H2|]; split; [exact H3|].
  exact (X7_request_exception_propagates float_of_digits (map day_number)
           compile_plain registry (lit "41117") (lit "가나") (inject_Z 84)
           (lit "key") 3 RequestError H1 H2 H3).
Defined.

Lemma X8_records_are_pooled_witness :
  let items_of := fun m : nat =>
                    match sample_registry (lit "key") (lit "41117")
                            (lit "2024" ++ format_02d m) with
                    | Ok items => items
                    | Raise _ => []
                    end in
  (forall m, 1 <= m <= 12 ->
     sample_registry (lit "key") (lit "41117") (lit "2024" ++ format_02d m)
     = Ok (items_of m))
  /\ query_months sample_registry float_of_digits (lit "key") (lit "41117")
       (seq 1 12) []
     = Ok (flat_map (fun m => parsed_records float_of_digits (items_of m))
             (seq 1 12))
  /\ get_latest_officetel_trade sample_registry float_of_digits (map day_number)
       compile_plain (lit "41117") (lit "가나") (inject_Z 84) (lit "key")
     = best_match (map day_number) compile_plain
         (flat_map (fun m => parsed_records float_of_digits (items_of m))
            (seq 1 12))
         (lit "가나") (inject_Z 84).
Proof.
  intros items_of.
  assert (H : forall m, 1 <= m <= 12 ->
            sample_registry (lit "key") (lit "41117") (lit "2024" ++ format_02d m)
            = Ok (items_of m)).
  { intros m _; unfold items_of, sample_registry.
    destruct (str_eqb (lit "2024" ++ format_02d m) (lit "202403")); reflexivity. }
  split; [exact H|].
  exact (X8_records_are_pooled_in_month_order float_of_digits (map day_number)
           compile_plain sample_registry (lit "41117") (lit "가나") (inject_Z 84)
           (lit "key") items_of H).
Defined.

Lemma X9_absent_exactly_witness :
  let rows := filter (fun t => str_in (lit "마바") (complex_name t))
                sample_result in
  let dates := map day_number (map contract_day rows) in
  query_months sample_registry float_of_digits (lit "key") (lit "41117")
    (seq 1 12) [] = Ok sample_result
  /\ sample_result <> []
  /\ compile_plain (lit "마바") = Ok (literal_re (lit "마바"))
  /\ ~ (exists i t d,
          nth_error rows i = Some t /\ nth_error dates i = Some (Some d))
  /\ get_latest_officetel_trade sample_registry float_of_digits (map day_number)
       compile_plain (lit "41117") (lit "마바") (inject_Z 84) (lit "key")
     = Ok None.
Proof.
  intros rows dates.
  assert (H2 : sample_result <> []) by discriminate.
  assert (H3 : compile_plain (lit "마바") = Ok (literal_re (lit "마바")))
    by reflexivity.
  assert (Hrows : rows = []) by (vm_compute; reflexivity).
  assert (H4 : ~ (exists i t d,
                    nth_error rows i = Some t
                    /\ nth_error dates i = Some (Some d))).
  { intros (i & t & d & Hr & _); rewrite Hrows in Hr.
    destruct i; discriminate Hr. }
  split; [exact sample_query|]; split; [exact H2|]; split; [exact H3|].
  split; [exact H4|].
  exact (proj2 (X9_absent_exactly_without_candidates float_of_digits
                  (map day_number) compile_plain sample_registry (lit "41117")
                  (lit "마바") (inject_Z 84) (lit "key") sample_result
                  sample_query H2 H3) H4).
Defined.

(** ** Features *)

Lemma normalize_mortgage_nonneg (text : str) (q : Q) :
  normalize_mortgage text = Ok q -> (0 <= q)%Q.
Proof.
  unfold normalize_mortgage.
  destruct (map_outcome _ _) as [values|] eqn:Hv; cbn [bind]; [|discriminate].
  assert (Hpos : Forall (fun v => 0 <= v)%Z values).
  { eapply map_outcome_values; [|exact Hv].
    intros m v _ H; cbv beta in H; apply amount_value_bound in H; lia. }
  destruct values as [|v values]; [intros H; injection H as <-; discriminate|].
  destruct (quotient_overflows _ _); [discriminate|].
  intros H; injection H as <-.
  inversion Hpos as [|? ? Hv0 _]; subst.
  pose proof (max_of_nonneg values v Hv0) as Hmax.
  unfold Qle, Qdiv, Qmult, Qinv, inject_Z; cbn [Qnum Qden]; lia.
Qed.

Lemma re_search_mortgage_needs_label (s : str) :
  str_in (lit "근저당권설정금") s = false -> re_search mortgage_re s = None.
Proof.
  assert (Hm : forall s', startswith (lit "근저당권설정금") s' = false ->
                 re_match mortgage_re s' = None).
  { intros s' H; unfold re_match, mortgage_re; cbn [rmatch].
    rewrite rmatch_literal, H; reflexivity. }
  induction s as [|c s IH]; cbn [str_in re_search]; intros H;
    apply orb_false_iff in H as [H1 H2]; rewrite (Hm _ H1); [reflexivity|].
  apply IH; exact H2.
Qed.

(** X10: in every record the function returns the senior-lien feature is
    not negative; and for every text in which, blanks removed, the label
    "근저당권설정금" does not occur, the function returns a record and the
    feature is 0. *)
Theorem X10_senior_lien_feature_range (text : str) (ratio : Q) :
  (forall f,
     parse_ocr_text_to_features text ratio = Ok f ->
     (0 <= mortgage_normalized f)%Q)
  /\ (str_in (lit "근저당권설정금") (replace1 (chr1 " ") [] text) = false ->
      exists f,
        parse_ocr_text_to_features text ratio = Ok f
        /\ mortgage_normalized f = (0 # 1)%Q).
Proof.
  unfold parse_ocr_text_to_features; split.
  - intros f H.
    destruct (normalize_mortgage (replace1 (chr1 " ") [] text)) as [q|e] eqn:Hq;
      cbn [bind] in H; [|discriminate].
    injection H as <-; cbn [mortgage_normalized].
    apply (normalize_mortgage_nonneg _ _ Hq).
  - intros H; apply re_search_mortgage_needs_label in H.
    unfold normalize_mortgage, re_findall_group, re_finditer.
    cbn [finditer_from]; rewrite H; cbn [map map_outcome bind].
    eexists; split; reflexivity.
Qed.

Lemma X10_senior_lien_witness :
  str_in (lit "근저당권설정금")
    (replace1 (chr1 " ") [] (lit "을구 근저당권 설정 채권최고액 금120,000,000원")) = false
  /\ exists f,
       parse_ocr_text_to_features
         (lit "을구 근저당권 설정 채권최고액 금120,000,000원") (7 # 10) = Ok f
       /\ mortgage_normalized f = (0 # 1)%Q
       /\ (0 <= mortgage_normalized f)%Q.
Proof.
  assert (H : str_in (lit "근저당권설정금")
                (replace1 (chr1 " ") []
                   (lit "을구 근저당권 설정 채권최고액 금120,000,000원")) = false)
    by (vm_compute; reflexivity).
  split; [exact H|].
  destruct (X10_senior_lien_feature_range
              (lit "을구 근저당권 설정 채권최고액 금120,000,000원") (7 # 10))
    as (Hpos & H0).
  destruct (H0 H) as (f & Hf & Hz).
  exists f; split; [exact Hf|]; split; [exact Hz | exact (Hpos f Hf)].
Defined.

Lemma startswith_iff (sub s : str) :
  startswith sub s = true <-> exists post, s = sub ++ post.
Proof.
  revert s; induction sub as [|x sub IH]; intros s; cbn [startswith].
  - split; [intros _; exists s; reflexivity | reflexivity].
  - destruct s as [|y s]; [split; [discriminate | intros [p H]; discriminate H]|].
    rewrite andb_true_iff, char_eqb_eq, IH; split.
    + intros [-> [post ->]]; exists post; reflexivity.
    + intros [post H]; injection H as -> ->; split; [reflexivity | eauto].
Qed.

Lemma str_in_iff (sub s : str) :
  str_in sub s = true <-> exists pre post, s = pre ++ sub ++ post.
Proof.
  induction s as [|c s IH]; cbn [str_in]; rewrite orb_true_iff, startswith_iff.
  - split.
    + intros [[post H]|H]; [exists [], post; exact H | discriminate].
    + intros (pre & post & H); left; destruct pre; [exists post; exact H|discriminate].
  - rewrite IH; split.
    + intros [[post H]|(pre & post & ->)];
        [exists [], post; exact H | exists (c :: pre), post; reflexivity].
    + intros (pre & post & H); destruct pre as [|x pre].
      * left; exists post; exact H.
      * injection H as -> ->; right; exists pre, post; reflexivity.
Qed.

(** A keyword without the separator lies on one side of it. *)
Lemma str_in_separated (sub a b : str) (sep : char) :
  sub <> [] -> ~ In sep sub ->
  (str_in sub (a ++ sep :: b) = true
   <-> str_in sub a = true \/ str_in sub b = true).
Proof.
  intros Hne Hsep; rewrite !str_in_iff; split.
  - intros (pre & post & H).
    apply app_eq_app in H as [l [[-> H]|[-> H]]].
    + apply app_eq_app in H as [l2 [[-> H]|[-> ->]]].
      * destruct l2 as [|x l2].
        -- left; exists pre, []; rewrite !app_nil_r; reflexivity.
        -- injection H as <- _; exfalso; apply Hsep, in_or_app; right; left; reflexivity.
      * left; exists pre, l2; reflexivity.
    + destruct l as [|x l].
      * destruct sub as [|y sub]; [congruence|].
        injection H as <- _; exfalso; apply Hsep; left; reflexivity.
      * injection H as _ ->; right; exists l, post; reflexivity.
  - intros [(pre & post & ->)|(pre & post & ->)].
    + exists pre, (post ++ sep :: b); rewrite <- !app_assoc; reflexivity.
    + exists (a ++ sep :: pre), post; rewrite <- app_assoc; reflexivity.
Qed.

(** X11: a keyword feature of the whole document is 1 exactly when some
    page, blanks removed, contains the keyword: the newline put after each
    page keeps a keyword from being found across two pages. *)
Theorem X11_keyword_found_on_some_page (pages : list str) (keyword : str) :
  keyword <> [] -> ~ In newline keyword ->
  (contains (replace1 (chr1 " ") [] (extract_text_from_pdf_with_ocr pages)) keyword
   = 1%Z
   <-> exists page,
         In page pages /\ contains (replace1 (chr1 " ") [] page) keyword = 1%Z).
Proof.
  intros Hne Hnl.
  assert (Hc : forall t, contains t keyword = 1%Z <-> str_in keyword t = true).
  { intros t; unfold contains; destruct (str_in keyword t);
      split; congruence || discriminate. }
  unfold extract_text_from_pdf_with_ocr.
  rewrite recognized_text_concat; cbn [app]; rewrite Hc.
  induction pages as [|p pages IH]; cbn [map List.concat].
  - split; [|intros (page & [] & _)].
    destruct keyword; [congruence | discriminate].
  - rewrite <- app_assoc, replace1_app; cbn [app].
    change (replace1 (chr1 " ") [] (newline :: ?t))
      with (newline :: replace1 (chr1 " ") [] t).
    rewrite (str_in_separated keyword _ _ newline Hne Hnl), IH; split.
    + intros [H|(page & Hin & H)].
      * exists p; split; [left; reflexivity | apply Hc; exact H].
      * exists page; split; [right; exact Hin | exact H].
    + intros (page & [<-|Hin] & H).
      * left; apply Hc; exact H.
      * right; exists page; auto.
Qed.

Lemma X11_keyword_witness :
  let pages := [lit "갑구 소유권 이전"; lit "을구 가 압류 2021년"] in
  lit "압류" <> [] /\ ~ In newline (lit "압류")
  /\ (exists page,
        In page pages /\ contains (replace1 (chr1 " ") [] page) (lit "압류") = 1%Z)
  /\ contains (replace1 (chr1 " ") [] (extract_text_from_pdf_with_ocr pages))
       (lit "압류") = 1%Z.
Proof.
  intros pages.
  assert (H1 : lit "압류" <> []) by discriminate.
  assert (H2 : ~ In newline (lit "압류"))
    by (intros [H|[H|[]]]; discriminate H).
  assert (H3 : exists page,
            In page pages
            /\ contains (replace1 (chr1 " ") [] page) (lit "압류") = 1%Z).
  { exists (lit "을구 가 압류 2021년"); split; [right; left; reflexivity|].
    vm_compute; reflexivity. }
  split; [exact H1|]; split; [exact H2|]; split; [exact H3|].
  exact (proj2 (X11_keyword_found_on_some_page pages (lit "압류") H1 H2) H3).
Defined.

(** ** Risk level *)

(** X12: the level never goes down when the score goes up. *)
Theorem X12_risk_level_is_monotone (score1 score2 : Q) :
  (score1 <= score2)%Q ->
  level_rank (fst (interpret_risk_score score1))
  <= level_rank (fst (interpret_risk_score score2)).
Proof.
  intros H; unfold interpret_risk_score.
  destruct (ge_score score1 80) eqn:A80;
    [|destruct (ge_score score1 60) eqn:A60;
      [|destruct (ge_score score1 40) eqn:A40;
        [|destruct (ge_score score1 20) eqn:A20]]];
  (destruct (ge_score score2 80) eqn:B80;
    [|destruct (ge_score score2 60) eqn:B60;
      [|destruct (ge_score score2 40) eqn:B40;
        [|destruct (ge_score score2 20) eqn:B20]]]);
  rewrite ?ge_score_true, ?ge_score_false in *; unfold inject_Z in *;
  cbn [fst];
  first [ exfalso; lra | vm_compute; lia ].
Qed.

Lemma X12_risk_level_witness :
  (35 # 1 <= 61 # 1)%Q
  /\ level_rank (fst (interpret_risk_score (35 # 1)))
     <= level_rank (fst (interpret_risk_score (61 # 1))).
Proof.
  assert (H : (35 # 1 <= 61 # 1)%Q) by (vm_compute; discriminate).
  split; [exact H | exact (X12_risk_level_is_monotone _ _ H)].
Defined.

(** ** Sorting by magnitude *)

Lemma insert_sorted_perm {A : Type} (le : A -> A -> bool) (x : A) (l : list A) :
  Permutation (insert_sorted le x l) (x :: l).
Proof.
  induction l as [|y l IH]; cbn [insert_sorted]; [reflexivity|].
  destruct (le x y); [reflexivity|].
  rewrite IH; apply perm_swap.
Qed.

Lemma sort_values_perm {A : Type} (le : A -> A -> bool) (l : list A) :
  Permutation (sort_values le l) l.
Proof.
  induction l as [|x l IH]; cbn [sort_values]; [reflexivity|].
  rewrite insert_sorted_perm, IH; reflexivity.
Qed.

Lemma insert_sorted_sorted {A : Type} (le : A -> A -> bool)
    (Htotal : forall a b, le a b = false -> le b a = true)
    (Htrans : forall a b c, le a b = true -> le b c = true -> le a c = true)
    (x : A) (l : list A) :
  StronglySorted (fun a b => le a b = true) l ->
  StronglySorted (fun a b => le a b = true) (insert_sorted le x l).
Proof.
  induction 1 as [|y l Hs IH Hy]; cbn [insert_sorted].
  - constructor; constructor.
  - destruct (le x y) eqn:E.
    + constructor; [constructor; assumption|].
      constructor; [exact E|].
      rewrite Forall_forall in *; intros z Hz; apply (Htrans _ y); auto.
    + constructor; [exact IH|].
      eapply Permutation_Forall; [symmetry; apply insert_sorted_perm|].
      constructor; [apply Htotal; exact E | exact Hy].
Qed.

Lemma sort_values_sorted {A : Type} (le : A -> A -> bool)
    (Htotal : forall a b, le a b = false -> le b a = true)
    (Htrans : forall a b c, le a b = true -> le b c = true -> le a c = true)
    (l : list A) :
  StronglySorted (fun a b => le a b = true) (sort_values le l).
Proof.
  induction l as [|x l IH]; cbn [sort_values]; [constructor|].
  apply insert_sorted_sorted; assumption.
Qed.

Lemma StronglySorted_app {A : Type} (R : A -> A -> Prop) (a b : list A) :
  StronglySorted R (a ++ b) ->
  StronglySorted R a /\ forall x y, In x a -> In y b -> R x y.
Proof.
  induction a as [|h a IH]; cbn [app]; intros H.
  - split; [constructor | intros x y []].
  - inversion H as [|? ? Hs Hh]; subst.
    destruct (IH Hs) as [Ha Hab]; split.
    + constructor; [exact Ha|].
      apply Forall_app in Hh as [Hh _]; exact Hh.
    + intros x y [<-|Hx] Hy; [|apply Hab; assumption].
      rewrite Forall_forall in Hh; apply Hh, in_or_app; right; exact Hy.
Qed.

Lemma StronglySorted_impl {A : Type} (R R' : A -> A -> Prop) (l : list A) :
  (forall a b, R a b -> R' a b) -> StronglySorted R l -> StronglySorted R' l.
Proof.
  intros H; induction 1 as [|a l Hs IH Ha]; constructor; [exact IH|].
  eapply Forall_impl; [apply H | exact Ha].
Qed.

Lemma sorted_by_magnitude_sorted {A : Type} (key : A -> Q) (l : list A) :
  StronglySorted (larger key) (sorted_by_magnitude key l).
Proof.
  unfold sorted_by_magnitude.
  eapply StronglySorted_impl; [|apply sort_values_sorted].
  - intros a b H; apply Qle_bool_iff in H; exact H.
  - intros a b H; apply Qle_bool_iff.
    destruct (Qle_bool (Qabs (key b)) (Qabs (key a))) eqn:E; [discriminate|].
    apply Qlt_le_weak, Qnot_le_lt; intros L.
    apply Qle_bool_iff in L; congruence.
  - intros a b c H1 H2; apply Qle_bool_iff in H1, H2; apply Qle_bool_iff.
    eapply Qle_trans; eassumption.
Qed.

Lemma sorted_by_magnitude_perm {A : Type} (key : A -> Q) (l : list A) :
  Permutation (sorted_by_magnitude key l) l.
Proof. apply sort_values_perm. Qed.


Lemma StronglySorted_map {A B : Type} (R : B -> B -> Prop) (f : A -> B)
    (l : list A) :
  StronglySorted (fun a b => R (f a) (f b)) l -> StronglySorted R (map f l).
Proof.
  induction 1 as [|a l Hs IH Ha]; cbn [map]; constructor; [exact IH|].
  apply Forall_map; exact Ha.
Qed.

(** X13: the factors handed to the prompt are the first three of the list
    sorted by magnitude: there are three of them (or as many as the list
    has), they come in non-increasing magnitude, and no entry left out has a
    larger magnitude than one that was taken. *)
Theorem X13_top_factors_are_the_three_largest (shap_list : list attribution) :
  List.length (top_factors shap_list) = Nat.min 3 (List.length shap_list)
  /\ StronglySorted (larger impact) (top_factors shap_list)
  /\ exists others,
       Permutation (top_factors shap_list ++ others) shap_list
       /\ forall x y,
            In x (top_factors shap_list) -> In y others -> larger impact x y.
Proof.
  unfold top_factors.
  pose proof (sorted_by_magnitude_sorted impact shap_list) as Hs.
  pose proof (sorted_by_magnitude_perm impact shap_list) as Hp.
  rewrite <- (firstn_skipn 3 (sorted_by_magnitude impact shap_list)) in Hs, Hp.
  apply StronglySorted_app in Hs as [Hs Hcross].
  split; [|split; [exact Hs|]].
  - rewrite length_firstn, <- (Permutation_length (sorted_by_magnitude_perm impact shap_list)).
    reflexivity.
  - exists (skipn 3 (sorted_by_magnitude impact shap_list)); split; assumption.
Qed.

(** X14: the attribution list of the response holds each pair of a feature
    name and its value once, in non-increasing magnitude, marked "up" when
    the value is positive and "down" otherwise. *)
Theorem X14_attribution_list (values : list Q) :
  Permutation (map (fun a => (feature a, impact a)) (shap_result_of values))
    (combine feature_columns values)
  /\ StronglySorted (larger impact) (shap_result_of values)
  /\ forall a, In a (shap_result_of values) ->
       (direction a = lit "up" <-> (0 < impact a)%Q)
       /\ (direction a = lit "down" <-> (impact a <= 0)%Q).
Proof.
  unfold shap_result_of; split; [|split].
  - rewrite map_map; cbn [feature impact].
    rewrite (map_ext _ (fun kv => kv)) by (intros [k v]; reflexivity).
    rewrite map_id; apply sorted_by_magnitude_perm.
  - apply StronglySorted_map.
    apply (sorted_by_magnitude_sorted snd).
  - intros a Ha; apply in_map_iff in Ha as (kv & <- & _); cbn [direction impact].
    destruct (Qle_bool (snd kv) 0) eqn:E.
    + apply Qle_bool_iff in E; split; split; intros H;
        try reflexivity; try exact E.
      * vm_compute in H; discriminate H.
      * exfalso; apply (Qlt_not_le _ _ H E).
    + assert (L : (0 < snd kv)%Q).
      { apply Qnot_le_lt; intros L; apply Qle_bool_iff in L; congruence. }
      split; split; intros H; try reflexivity; try exact L.
      * vm_compute in H; discriminate H.
      * exfalso; apply (Qlt_not_le _ _ L H).
Qed.

Lemma X14_attribution_list_witness :
  let values := [(3 # 10); (-1 # 2); 0; (1 # 5); (-1 # 10); (7 # 10); (1 # 100)]%Q in
  map (fun a => (feature a, direction a)) (shap_result_of values)
  = [(lit "소유권이전", lit "up"); (lit "신탁", lit "down");
     (lit "전세가율", lit "up"); (lit "가압류", lit "up");
     (lit "압류", lit "down"); (lit "임차권등기명령", lit "up");
     (lit "근저당정규화", lit "down")]
  /\ forall a, In a (shap_result_of values) ->
       (direction a = lit "up" -> (0 < impact a)%Q).
Proof.
  intros values; split; [vm_compute; reflexivity|].
  intros a Ha H.
  exact (proj1 (proj1 (proj2 (proj2 (X14_attribution_list values)) a Ha)) H).
Defined.

(** ** The endpoint *)

Lemma extract_pdf_cases (pages : list str) :
  extract_address_and_building_from_pdf pages = Ok (None, None)
  \/ exists address building_name,
       address <> []
       /\ extract_address_and_building_from_pdf pages
          = Ok (Some address, Some building_name).
Proof.
  unfold extract_address_and_building_from_pdf.
  destruct (extract_from_text_cases (recognized_text pages))
    as [H|(region & citygu & dong & b & [Nr _] & _ & _ & _ & H)]; [left; exact H|].
  right; eexists; exists b; split; [|exact H].
  destruct region; [congruence | discriminate].
Qed.

Section EndpointFacts.
Variable table : list code_row.
Variable registry : str -> str -> str -> outcome (list item).
Variable py_float : str -> outcome Q.
Variable to_datetime : list str -> list (option Z).
Variable re_compile : str -> outcome regex.
Variable service_key : str.
Variable predict : features -> Q.
Variable shap_values : features -> list Q.
Variable round2 : Q -> Q.
Variable summary_of : Q -> str -> list attribution -> outcome str.

Local Abbreviation analyze :=
  (analyze_pdf table registry py_float to_datetime re_compile service_key
     predict shap_values round2 summary_of).

Ltac endpoint_cases H :=
  repeat match type of H with
         | context [match ?x with _ => _ end] =>
             let E := fresh "E" in destruct x eqn:E; try discriminate H
         end.

(** X15: the endpoint answers 400 "주소 또는 건물명 추출 실패" exactly when
    the parse returns the absent pair or an address with an empty building
    name; no later failure produces this answer. *)
Theorem X15_extraction_failure_response
    (pages : list str) (area : Q) (jeonse_price : Z) :
  analyze pages area jeonse_price
    = Responded (JSONError 400 (lit "주소 또는 건물명 추출 실패"))
  <-> (extract_address_and_building_from_pdf pages = Ok (None, None)
       \/ exists address,
            extract_address_and_building_from_pdf pages
            = Ok (Some address, Some [])).
Proof.
  unfold analyze_pdf, run.
  destruct (extract_pdf_cases pages) as [E|(a & b & Ha & E)]; rewrite E;
    cbn [fst snd].
  - split; [left; reflexivity | reflexivity].
  - destruct a as [|a0 a]; [congruence|]; destruct b as [|b0 b]; cbn [falsy orb].
    + split; [right; eauto | reflexivity].
    + split.
      * intros H; exfalso; endpoint_cases H.
      * intros [H|[address H]]; discriminate H.
Qed.

(** X16: when the parse gave an address and a building name, the endpoint
    answers 400 "법정동코드 조회 실패" exactly when the lookup returns the
    absent result or an empty code, and 404 exactly when the lookup gave a
    code and the matcher returns the absent result. *)
Theorem X16_lookup_and_match_failure_responses
    (pages : list str) (area : Q) (jeonse_price : Z)
    (address building_name : str) :
  extract_address_and_building_from_pdf pages
    = Ok (Some address, Some building_name) ->
  building_name <> [] ->
  (analyze pages area jeonse_price
     = Responded (JSONError 400 (lit "법정동코드 조회 실패"))
   <-> (get_lawd_cd address table = Ok None
        \/ get_lawd_cd address table = Ok (Some [])))
  /\ (analyze pages area jeonse_price
        = Responded (JSONError 404 (lit "실거래가 조회 실패"))
      <-> exists lawd_cd,
            lawd_cd <> []
            /\ get_lawd_cd address table = Ok (Some lawd_cd)
            /\ get_latest_officetel_trade registry py_float to_datetime
                 re_compile lawd_cd building_name area service_key = Ok None).
Proof.
  intros E Hb.
  assert (Ha : address <> []).
  { destruct (extract_pdf_cases pages) as [E'|(a & b & Ha & E')];
      rewrite E' in E; [discriminate|]; congruence. }
  unfold analyze_pdf, run; rewrite E; cbn [fst snd].
  destruct address as [|a0 a]; [congruence|].
  destruct building_name as [|b0 b]; [congruence|]; cbn [falsy orb].
  destruct (get_lawd_cd (a0 :: a) table) as [[[|c0 code]|]|e] eqn:El.
  - split; split.
    + intros _; right; reflexivity.
    + intros _; reflexivity.
    + intros H; discriminate H.
    + intros (lawd & Hl & H & _); congruence.
  - split; split.
    + intros H; exfalso; endpoint_cases H.
    + intros [H|H]; discriminate H.
    + intros H; exists (c0 :: code); split; [discriminate|]; split; [reflexivity|].
      endpoint_cases H; reflexivity.
    + intros (lawd & _ & H & Hm); injection H as <-; rewrite Hm; reflexivity.
  - split; split.
    + intros _; left; reflexivity.
    + intros _; reflexivity.
    + intros H; discriminate H.
    + intros (lawd & Hl & H & _); discriminate H.
  - split; split.
    + intros H; discriminate H.
    + intros [H|H]; discriminate H.
    + intros H; discriminate H.
    + intros (lawd & Hl & H & _); discriminate H.
Qed.
End EndpointFacts.

Section EndpointOutcomes.
Variable table : list code_row.
Variable registry : str -> str -> str -> outcome (list item).
Variable py_float : str -> outcome Q.
Variable to_datetime : list str -> list (option Z).
Variable re_compile : str -> outcome regex.
Variable service_key : str.
Variable predict : features -> Q.
Variable shap_values : features -> list Q.
Variable round2 : Q -> Q.
Variable summary_of : Q -> str -> list attribution -> outcome str.

Local Abbreviation analyze :=
  (analyze_pdf table registry py_float to_datetime re_compile service_key
     predict shap_values round2 summary_of).

Ltac outcome_cases H :=
  repeat match type of H with
         | context [match ?x with _ => _ end] =>
             let E := fresh "E" in destruct x eqn:E; try discriminate H
         end.

(** X17: when the parse and the lookup succeed and the registry has no
    record for any of the twelve months, the endpoint does not answer 404:
    the KeyError of the matcher ends the call. *)
Theorem X17_no_records_end_in_key_error
    (pages : list str) (area : Q) (jeonse_price : Z)
    (address building_name lawd_cd : str) :
  extract_address_and_building_from_pdf pages
    = Ok (Some address, Some building_name) ->
  building_name <> [] ->
  get_lawd_cd address table = Ok (Some lawd_cd) -> lawd_cd <> [] ->
  (forall deal_ymd, In deal_ymd deal_months ->
     registry service_key lawd_cd deal_ymd = Ok []) ->
  analyze pages area jeonse_price = Failed (Propagated KeyError).
Proof.
  intros E Hb El Hl Hr.
  assert (Ha : address <> []).
  { destruct (extract_pdf_cases pages) as [E'|(a & b & Ha & E')];
      rewrite E' in E; [discriminate|]; congruence. }
  assert (Hm : get_latest_officetel_trade registry py_float to_datetime
                 re_compile lawd_cd building_name area service_key
               = Raise KeyError).
  { unfold get_latest_officetel_trade.
    rewrite (query_months_pooled py_float registry service_key lawd_cd
               (fun _ => [])); [reflexivity|].
    intros m Hin; apply Hr; rewrite deal_months_seq.
    apply (in_map (fun month => lit "2024" ++ format_02d month)); exact Hin. }
  unfold analyze_pdf, run; rewrite E; cbn [fst snd].
  destruct address as [|a0 a]; [congruence|].
  destruct building_name as [|b0 b]; [congruence|]; cbn [falsy orb].
  rewrite El; destruct lawd_cd as [|c0 code]; [congruence|].
  rewrite Hm; reflexivity.
Qed.

(** X18: a matched record whose amount reads as 0 makes the division of the
    deposit by the sale price fail: the call ends in ZeroDivisionError. *)
Theorem X18_zero_amount_ends_in_zero_division
    (pages : list str) (area : Q) (jeonse_price : Z)
    (address building_name lawd_cd : str) (latest : candidate) :
  extract_address_and_building_from_pdf pages
    = Ok (Some address, Some building_name) ->
  building_name <> [] ->
  get_lawd_cd address table = Ok (Some lawd_cd) -> lawd_cd <> [] ->
  get_latest_officetel_trade registry py_float to_datetime re_compile
    lawd_cd building_name area service_key = Ok (Some latest) ->
  int_of_str (replace1 (chr1 ",") [] (amount (cand_trade latest))) = Ok 0%Z ->
  analyze pages area jeonse_price = Failed ZeroDivisionError.
Proof.
  intros E Hb El Hl Hm Hn.
  assert (Ha : address <> []).
  { destruct (extract_pdf_cases pages) as [E'|(a & b & Ha & E')];
      rewrite E' in E; [discriminate|]; congruence. }
  unfold analyze_pdf, run; rewrite E; cbn [fst snd].
  destruct address as [|a0 a]; [congruence|].
  destruct building_name as [|b0 b]; [congruence|]; cbn [falsy orb].
  rewrite El; destruct lawd_cd as [|c0 code]; [congruence|].
  rewrite Hm, Hn; reflexivity.
Qed.

(** X19: what a successful answer tells.  Its address is the parsed one and
    has three components; its building name is the parsed one, not empty
    and made of Hangul syllables; its sale price is 10000 times the amount
    of the record the matcher returned for them, and not 0; the deposit is
    echoed; the level and message are those of the score predicted for the
    features of the whole text at the ratio of the deposit to the sale
    price; and the attribution list is the sorted one. *)
Theorem X19_successful_answer
    (pages : list str) (area : Q) (jeonse_price : Z) (body : analysis) :
  analyze pages area jeonse_price = Responded (JSONResult body) ->
  extract_address_and_building_from_pdf pages
    = Ok (Some (r_address body), Some (r_building body))
  /\ List.length (split (r_address body)) = 3
  /\ r_building body <> []
  /\ forallb is_hangul_syllable (r_building body) = true
  /\ r_jeonse_price body = jeonse_price
  /\ r_sale_price body <> 0%Z
  /\ (exists lawd_cd latest n,
        get_lawd_cd (r_address body) table = Ok (Some lawd_cd)
        /\ get_latest_officetel_trade registry py_float to_datetime re_compile
             lawd_cd (r_building body) area service_key = Ok (Some latest)
        /\ int_of_str (replace1 (chr1 ",") [] (amount (cand_trade latest))) = Ok n
        /\ r_sale_price body = (n * 10000)%Z)
  /\ exists feats,
       parse_ocr_text_to_features (extract_text_from_pdf_with_ocr pages)
         (inject_Z jeonse_price / inject_Z (r_sale_price body))%Q = Ok feats
       /\ r_risk_score body = round2 (predict feats)
       /\ (r_risk_level body, r_risk_message body)
          = interpret_risk_score (predict feats)
       /\ r_shap body = shap_result_of (shap_values feats).
Proof.
  unfold analyze_pdf, run, extract_address_and_building_from_pdf.
  destruct (extract_from_text_cases (recognized_text pages))
    as [E|(region & citygu & dong & b & Tr & Tc & Td & Hb & E)]; rewrite E;
    cbn [fst snd]; [discriminate|].
  pose proof (split_three _ _ _ Tr Tc Td) as Hs.
  set (address := region ++ lit " " ++ citygu ++ lit " " ++ dong) in *.
  intros H; outcome_cases H.
  injection H as <-; cbn [r_address r_building r_jeonse_price r_sale_price
                          r_risk_score r_risk_level r_risk_message r_shap].
  split; [reflexivity|]; split; [rewrite Hs; reflexivity|].
  split.
  { intros Hb0; subst b; cbn [falsy] in *.
    match goal with
    | F : _ || true = false |- _ => rewrite orb_true_r in F; discriminate F
    end. }
  split; [exact Hb|]; split; [reflexivity|].
  split; [apply Z.eqb_neq; assumption|].
  split; [eauto 10|].
  eexists; split; [eassumption|].
  split; [reflexivity|]; split; [|reflexivity].
  symmetry; apply surjective_pairing.
Qed.
End EndpointOutcomes.

Lemma X15_extraction_failure_witness :
  let pages := [lit "[집합건물] 경기도 수원시 영통구 이의동 123-4 제5층 제501호"] in
  (exists address,
     extract_address_and_building_from_pdf pages = Ok (Some address, Some []))
  /\ sample_analyze sample_table sample_registry pages (inject_Z 84) 300000000
     = Responded (JSONError 400 (lit "주소 또는 건물명 추출 실패")).
Proof.
  intros pages.
  assert (H : exists address,
            extract_address_and_building_from_pdf pages
            = Ok (Some address, Some [])).
  { exists (lit "경기도 수원시영통구 이의동"); vm_compute; reflexivity. }
  split; [exact H|].
  exact (proj2 (X15_extraction_failure_response _ _ _ _ _ _ _ _ _ _
                  pages (inject_Z 84) 300000000) (or_intror H)).
Defined.

Lemma sample_extract :
  extract_address_and_building_from_pdf sample_pages
  = Ok (Some (lit "경기도 수원시영통구 이의동"), Some (lit "가나오피스텔")).
Proof. vm_compute; reflexivity. Qed.

Lemma X16_lookup_failure_witness :
  extract_address_and_building_from_pdf sample_pages
    = Ok (Some (lit "경기도 수원시영통구 이의동"), Some (lit "가나오피스텔"))
  /\ lit "가나오피스텔" <> []
  /\ get_lawd_cd (lit "경기도 수원시영통구 이의동") [] = Ok None
  /\ sample_analyze [] sample_registry sample_pages (inject_Z 84) 300000000
     = Responded (JSONError 400 (lit "법정동코드 조회 실패")).
Proof.
  assert (Hb : lit "가나오피스텔" <> []) by discriminate.
  assert (Hl : get_lawd_cd (lit "경기도 수원시영통구 이의동") [] = Ok None)
    by reflexivity.
  split; [exact sample_extract|]; split; [exact Hb|]; split; [exact Hl|].
  exact (proj2 (proj1 (X16_lookup_and_match_failure_responses _ _ _ _ _ _ _ _ _ _
                         sample_pages (inject_Z 84) 300000000 _ _
                         sample_extract Hb)) (or_introl Hl)).
Defined.

Lemma X17_no_records_witness :
  extract_address_and_building_from_pdf sample_pages
    = Ok (Some (lit "경기도 수원시영통구 이의동"), Some (lit "가나오피스텔"))
  /\ lit "가나오피스텔" <> []
  /\ get_lawd_cd (lit "경기도 수원시영통구 이의동") sample_table
     = Ok (Some (lit "41117"))
  /\ lit "41117" <> []
  /\ sample_analyze sample_table (fun _ _ _ => Ok []) sample_pages
       (inject_Z 84) 300000000
     = Failed (Propagated KeyError).
Proof.
  assert (Hb : lit "가나오피스텔" <> []) by discriminate.
  assert (Hl : get_lawd_cd (lit "경기도 수원시영통구 이의동") sample_table
               = Ok (Some (lit "41117"))) by (vm_compute; reflexivity).
  assert (Hc : lit "41117" <> []) by discriminate.
  split; [exact sample_extract|]; split; [exact Hb|]; split; [exact Hl|].
  split; [exact Hc|].
  exact (X17_no_records_end_in_key_error sample_table (fun _ _ _ => Ok [])
           _ _ _ _ _ _ _ _ sample_pages (inject_Z 84) 300000000 _ _ _
           sample_extract Hb Hl Hc (fun _ _ => eq_refl)).
Defined.

Lemma X18_zero_amount_witness :
  let latest :=
    {| cand_trade := {| complex_name := lit "가나오피스텔";
                        excl_area := inject_Z 84;
                        contract_day := lit "2024-3-15"; amount := lit "0" |};
       area_diff := (0 # 1)%Q; contract_date := 20240315%Z |} in
  get_latest_officetel_trade zero_amount_registry float_of_digits
    (map day_number) compile_plain (lit "41117") (lit "가나오피스텔")
    (inject_Z 84) (lit "key") = Ok (Some latest)
  /\ int_of_str (replace1 (chr1 ",") [] (amount (cand_trade latest))) = Ok 0%Z
  /\ sample_analyze sample_table zero_amount_registry sample_pages
       (inject_Z 84) 300000000
     = Failed ZeroDivisionError.
Proof.
  intros latest.
  assert (Hb : lit "가나오피스텔" <> []) by discriminate.
  assert (Hl : get_lawd_cd (lit "경기도 수원시영통구 이의동") sample_table
               = Ok (Some (lit "41117"))) by (vm_compute; reflexivity).
  assert (Hc : lit "41117" <> []) by discriminate.
  assert (Hm : get_latest_officetel_trade zero_amount_registry float_of_digits
                 (map day_number) compile_plain (lit "41117")
                 (lit "가나오피스텔") (inject_Z 84) (lit "key")
               = Ok (Some latest)) by (vm_compute; reflexivity).
  assert (Hn : int_of_str (replace1 (chr1 ",") [] (amount (cand_trade latest)))
               = Ok 0%Z) by reflexivity.
  split; [exact Hm|]; split; [exact Hn|].
  exact (X18_zero_amount_ends_in_zero_division sample_table zero_amount_registry
           _ _ _ _ _ _ _ _ sample_pages (inject_Z 84) 300000000 _ _ _ latest
           sample_extract Hb Hl Hc Hm Hn).
Defined.

Lemma X19_successful_answer_witness :
  exists body,
    sample_analyze sample_table sample_registry sample_pages (inject_Z 84)
      300000000 = Responded (JSONResult body)
    /\ r_sale_price body = 365000000%Z
    /\ r_risk_level body = lit "높음"
    /\ List.length (split (r_address body)) = 3
    /\ r_building body <> [].
Proof.
  assert (H : exists body,
            sample_analyze sample_table sample_registry sample_pages
              (inject_Z 84) 300000000 = Responded (JSONResult body)
            /\ r_sale_price body = 365000000%Z
            /\ r_risk_level body = lit "높음").
  { eexists; split; [vm_compute; reflexivity|]; split; reflexivity. }
  destruct H as (body & H & Hp & Hlev).
  exists body; split; [exact H|]; split; [exact Hp|]; split; [exact Hlev|].
  destruct (X19_successful_answer _ _ _ _ _ _ _ _ _ _ _ _ _ _ H)
    as (_ & H3 & Hne & _).
  split; [exact H3 | exact Hne].
Defined.
